(** * The Novita provider of ai-gradio: a shallow embedding and its properties

    Source: [src/ai_gradio/providers/novita_gradio.py].

    The provider builds a chat message list ([preprocess]), posts it to the
    completion endpoint and decodes the server-sent-event stream into
    cumulative text snapshots ([get_fn] / [fn]), normalises multimodal user
    input ([handle_user_msg], [get_image_base64]) and resolves the credential
    ([registry]).

    Python values are embedded as an inductive type, raised exceptions as a
    record of class and description, a generator as the list of the values it
    yields together with the way it ends.  What the program receives from
    outside (the HTTP exchange, the file system, the process environment,
    Gradio's constructors, the interpreter's wording of its own error
    messages) is a parameter of the definitions that use it. *)

From Stdlib Require Import Bool NArith ZArith String Ascii Lia List.
From Stdlib Require Import Strings.Byte.
From Stdlib Require Import DecimalString.
Import ListNotations.

Set Warnings "-register-all".

(* ===================================================================== *)
(** * Python data *)
(* ===================================================================== *)

Module Py.

(** A Python [str] is a sequence of Unicode code points, [bytes] a sequence
    of octets. *)
Definition str := list N.
Definition bytes := list byte.

(** [u "abc"] is the [str] literal of an ASCII text, [b "abc"] the [bytes]
    literal. *)
Definition u (s : string) : str := map N_of_ascii (list_ascii_of_string s).
Definition b (s : string) : bytes := list_byte_of_string s.

(** [dq s] is [s] with every apostrophe replaced by a double quote, so that
    JSON text can be written down readably. *)
Definition dq_ascii (a : ascii) : ascii :=
  if Ascii.eqb a "'"%char then ascii_of_nat 34 else a.

Fixpoint dq (s : string) : string :=
  match s with
  | EmptyString => EmptyString
  | String a r => String (dq_ascii a) (dq r)
  end.

Fixpoint str_eqb (x y : str) : bool :=
  match x, y with
  | [], [] => true
  | a :: x', c :: y' => N.eqb a c && str_eqb x' y'
  | _, _ => false
  end.

(** [s.startswith(p)] *)
Fixpoint startswith (s p : str) : bool :=
  match p, s with
  | [], _ => true
  | c :: p', a :: s' => N.eqb a c && startswith s' p'
  | _ :: _, [] => false
  end.

Definition mem_str (x : str) (l : list str) : bool := existsb (str_eqb x) l.

(** The code points for which [str.isspace] holds; [str.strip()] removes
    them at both ends. *)
Definition isspace (c : N) : bool :=
  ((9 <=? c) && (c <=? 13) || (28 <=? c) && (c <=? 32)
   || (c =? 133) || (c =? 160) || (c =? 5760)
   || (8192 <=? c) && (c <=? 8202)
   || (c =? 8232) || (c =? 8233) || (c =? 8239) || (c =? 8287)
   || (c =? 12288))%N.

Fixpoint lstrip_by (p : N -> bool) (s : str) : str :=
  match s with
  | [] => []
  | c :: r => if p c then lstrip_by p r else s
  end.

Definition strip_by (p : N -> bool) (s : str) : str :=
  rev (lstrip_by p (rev (lstrip_by p s))).

(** [s.strip()] and [s.strip(".")] *)
Definition strip (s : str) : str := strip_by isspace s.
Definition strip_dots (s : str) : str := strip_by (N.eqb 46) s.

(** [s.lower()] on the ASCII letters.  [str.lower] also rewrites letters
    outside ASCII, but the only use in this program compares the result with
    the ASCII words png, jpg, jpeg and gif: a code point outside ASCII lowers
    to text outside ASCII, except U+212A (KELVIN SIGN), which lowers to k, and
    U+0130, which lowers to i followed by U+0307. *)
Definition lower_cp (c : N) : list N :=
  (if (65 <=? c) && (c <=? 90) then [c + 32]
   else if c =? 8490 then [107]
   else if c =? 304 then [105; 775]
   else [c])%N.

Definition lower (s : str) : str := flat_map lower_cp s.

(** Python values, as far as this program handles them: what [json.loads]
    returns, and what Gradio passes as messages.  A [float] is kept as the
    signed decimal [m * 10^e] it was written as. *)
Inductive pyfloat :=
| FDec (negative : bool) (m : N) (e : Z)
| FInf (negative : bool)
| FNaN.

Inductive value :=
| VNone
| VBool (x : bool)
| VInt (z : Z)
| VFloat (f : pyfloat)
| VStr (s : str)
| VList (l : list value)
| VDict (d : list (str * value)).

Inductive pytype := TNone | TBool | TInt | TFloat | TStr | TList | TDict.

Definition type_of (v : value) : pytype :=
  match v with
  | VNone => TNone
  | VBool _ => TBool
  | VInt _ => TInt
  | VFloat _ => TFloat
  | VStr _ => TStr
  | VList _ => TList
  | VDict _ => TDict
  end.

(** A decimal [m * 10^e] is read as the double nearest to it, which is zero
    exactly when [m] is, or when the decimal is at most [2^-1075], half of
    the smallest subnormal. *)
Definition float_is_zero (f : pyfloat) : bool :=
  match f with
  | FDec _ m e =>
      (m =? 0)%N
      || ((e <? 0)%Z && (Z.of_N m * 2 ^ 1075 <=? 10 ^ (- e))%Z)
  | FInf _ | FNaN => false
  end.

(** Truth value of an object, as [if x:] and [not x] test it. *)
Definition truthy (v : value) : bool :=
  match v with
  | VNone => false
  | VBool x => x
  | VInt z => negb (z =? 0)%Z
  | VFloat f => negb (float_is_zero f)
  | VStr s => match s with [] => false | _ => true end
  | VList l => match l with [] => false | _ => true end
  | VDict d => match d with [] => false | _ => true end
  end.

(** ** Dictionaries: association lists in insertion order

    [dict_set] overwrites the binding of a key that is present and keeps its
    position, as assignment to a Python dict does. *)
Definition dict := list (str * value).

Fixpoint dict_lookup (k : str) (d : dict) : option value :=
  match d with
  | [] => None
  | (k', v) :: r => if str_eqb k k' then Some v else dict_lookup k r
  end.

Fixpoint dict_set (k : str) (v : value) (d : dict) : dict :=
  match d with
  | [] => [(k, v)]
  | (k', v') :: r =>
      if str_eqb k k' then (k', v) :: r else (k', v') :: dict_set k v r
  end.

(** ** Exceptions *)

Inductive exc_class :=
| KeyError | IndexError | TypeError | AttributeError | UnicodeDecodeError
| JSONDecodeError | OSError | NotImplementedError | ValueError
| OtherException    (* any other subclass of Exception, e.g. those of requests *)
| NotAnException.   (* KeyboardInterrupt, SystemExit, GeneratorExit *)

(** A raised exception: its class and [str(e)]. *)
Record raised := Raised { cls : exc_class; descr : str }.

(** [isinstance(e, Exception)] *)
Definition is_Exception (e : raised) : bool :=
  match cls e with
  | NotAnException => false
  | _ => true
  end.

(** [isinstance(e, json.JSONDecodeError)] *)
Definition is_JSONDecodeError (e : raised) : bool :=
  match cls e with
  | JSONDecodeError => true
  | _ => false
  end.

(** Failures that the interpreter and the standard library raise on their
    own.  Their class is fixed; the text of their description is the
    interpreter's and differs between versions, so it is a parameter
    ([wording]) wherever one of them can be raised. *)
Inductive fault :=
| NotSubscriptable (t : pytype)             (* x[k] on None, bool, int, float *)
| BadIndexType (container key : pytype)     (* list or str indexed by a str *)
| IndexOutOfRange (container : pytype)
| NoAttribute (t : pytype) (name : str)     (* x.get on something not a dict *)
| CannotConcat (t : pytype)                 (* str += something not a str *)
| NoLen (t : pytype)                        (* len of None, bool, int, float *)
| NotAPath (t : pytype)                     (* os.path.splitext of a non-str *)
| CannotDecode (line : bytes)               (* bytes.decode('utf-8') *)
| RepeatedKeyword (callee name : str)       (* f(name=x, **{name: y}) *)
| InvalidJson (doc : str).                  (* json.loads *)

Definition class_of (f : fault) : exc_class :=
  match f with
  | NotSubscriptable _ | BadIndexType _ _ | CannotConcat _ | NoLen _
  | NotAPath _ | RepeatedKeyword _ _ => TypeError
  | IndexOutOfRange _ => IndexError
  | NoAttribute _ _ => AttributeError
  | CannotDecode _ => UnicodeDecodeError
  | InvalidJson _ => JSONDecodeError
  end.

(** Keys used in subscripts: string literals and integer literals. *)
Inductive key := KStr (s : str) | KInt (z : Z).

Definition type_of_key (k : key) : pytype :=
  match k with KStr _ => TStr | KInt _ => TInt end.

(** [repr] of a key.  The string keys of this program are the literals
    choices, delta, content, files and text: printable, without quotes or
    backslashes, so their [repr] is the text between apostrophes. *)
Definition repr_key (k : key) : str :=
  match k with
  | KStr s => u "'" ++ s ++ u "'"
  | KInt z => u (NilEmpty.string_of_int (Z.to_int z))
  end.

(** [str(KeyError(k))] is [repr(k)]. *)
Definition key_error (k : key) : raised :=
  {| cls := KeyError; descr := repr_key k |}.

(** ** Results of operations that may raise *)

Inductive result (A : Type) :=
| Ok (a : A)
| Err (e : raised).
Arguments Ok {A} a.
Arguments Err {A} e.

Definition bind {A B} (r : result A) (k : A -> result B) : result B :=
  match r with
  | Ok a => k a
  | Err e => Err e
  end.

End Py.

Import Py.

Declare Scope py_scope.
Delimit Scope py_scope with py.
Notation "x <- c ;; k" := (bind c (fun x => k))
  (at level 61, c at next level, right associativity) : py_scope.
Open Scope py_scope.

(* ===================================================================== *)
(** * Operations of the interpreter and the standard library *)
(* ===================================================================== *)

Module Builtins.

Section Wording.

(** The interpreter's text for the failures it raises itself. *)
Variable wording : fault -> str.

Definition fail {A} (f : fault) : result A :=
  Err {| cls := class_of f; descr := wording f |}.

(** Element [i] of a sequence, negative [i] counting from the end. *)
Definition index {A} (l : list A) (i : Z) : option A :=
  let j := (if i <? 0 then Z.of_nat (length l) + i else i)%Z in
  if (j <? 0)%Z then None else nth_error l (Z.to_nat j).

(** [v[k]] *)
Definition getitem (v : value) (k : key) : result value :=
  match v with
  | VDict d =>
      match k with
      | KStr s =>
          match dict_lookup s d with
          | Some x => Ok x
          | None => Err (key_error k)
          end
      | KInt _ => Err (key_error k)   (* every key of a dict here is a str *)
      end
  | VList l =>
      match k with
      | KInt i =>
          match index l i with
          | Some x => Ok x
          | None => fail (IndexOutOfRange TList)
          end
      | KStr _ => fail (BadIndexType TList TStr)
      end
  | VStr s =>
      match k with
      | KInt i =>
          match index s i with
          | Some c => Ok (VStr [c])
          | None => fail (IndexOutOfRange TStr)
          end
      | KStr _ => fail (BadIndexType TStr TStr)
      end
  | VNone | VBool _ | VInt _ | VFloat _ => fail (NotSubscriptable (type_of v))
  end.

(** [v.get(k, default)] *)
Definition get (v : value) (k : str) (default : value) : result value :=
  match v with
  | VDict d =>
      match dict_lookup k d with
      | Some x => Ok x
      | None => Ok default
      end
  | _ => fail (NoAttribute (type_of v) (u "get"))
  end.

(** [len(v)] *)
Definition len (v : value) : result nat :=
  match v with
  | VStr s => Ok (length s)
  | VList l => Ok (length l)
  | VDict d => Ok (length d)
  | _ => fail (NoLen (type_of v))
  end.

(** [s += v] for a [str] variable [s] *)
Definition iadd (s : str) (v : value) : result str :=
  match v with
  | VStr t => Ok (s ++ t)
  | _ => fail (CannotConcat (type_of v))
  end.

(** ** [bytes.decode('utf-8')], strict *)

Definition continuation (x : N) : bool := ((128 <=? x) && (x <=? 191))%N.

Fixpoint utf8 (l : list N) : option str :=
  match l with
  | [] => Some []
  | a :: r =>
      if (a <? 128)%N then option_map (cons a) (utf8 r)
      else if ((194 <=? a) && (a <=? 223))%N then
        match r with
        | x :: r1 =>
            if continuation x
            then option_map (cons ((a - 192) * 64 + (x - 128))%N) (utf8 r1)
            else None
        | _ => None
        end
      else if ((224 <=? a) && (a <=? 239))%N then
        match r with
        | x :: y :: r2 =>
            if continuation x && continuation y
               && (negb (a =? 224) || (160 <=? x))%N    (* not overlong *)
               && (negb (a =? 237) || (x <=? 159))%N    (* not a surrogate *)
            then option_map
                   (cons ((a - 224) * 4096 + (x - 128) * 64 + (y - 128))%N)
                   (utf8 r2)
            else None
        | _ => None
        end
      else if ((240 <=? a) && (a <=? 244))%N then
        match r with
        | x :: y :: z :: r3 =>
            if continuation x && continuation y && continuation z
               && (negb (a =? 240) || (144 <=? x))%N    (* not overlong *)
               && (negb (a =? 244) || (x <=? 143))%N    (* at most U+10FFFF *)
            then option_map
                   (cons ((a - 240) * 262144 + (x - 128) * 4096
                          + (y - 128) * 64 + (z - 128))%N)
                   (utf8 r3)
            else None
        | _ => None
        end
      else None
  end.

Definition decode (line : bytes) : result str :=
  match utf8 (map Byte.to_N line) with
  | Some s => Ok s
  | None => fail (CannotDecode line)
  end.

End Wording.

(** ** [base64.b64encode(data).decode('utf-8')] *)

Definition b64_digit (n : N) : N :=
  (if n <? 26 then 65 + n
   else if n <? 52 then 97 + (n - 26)
   else if n <? 62 then 48 + (n - 52)
   else if n =? 62 then 43
   else 47)%N.

Fixpoint b64 (l : list N) : str :=
  match l with
  | [] => []
  | [x] =>
      [b64_digit (x / 4); b64_digit (x mod 4 * 16); 61; 61]%N
  | [x; y] =>
      [b64_digit (x / 4); b64_digit (x mod 4 * 16 + y / 16);
       b64_digit (y mod 16 * 4); 61]%N
  | x :: y :: z :: r =>
      [b64_digit (x / 4); b64_digit (x mod 4 * 16 + y / 16);
       b64_digit (y mod 16 * 4 + z / 64); b64_digit (z mod 64)]%N ++ b64 r
  end.

Definition b64encode (data : bytes) : str := b64 (map Byte.to_N data).

(** ** [os.path.splitext], POSIX flavour ([genericpath._splitext] with
    separator [/] and extension separator [.]) *)

(** [s.rfind(c)]: the last index of [c] in [s], or -1. *)
Fixpoint rfind_from (c : N) (s : str) (i : Z) (found : Z) : Z :=
  match s with
  | [] => found
  | a :: r => rfind_from c r (i + 1) (if N.eqb a c then i else found)
  end.

Definition rfind (c : N) (s : str) : Z := rfind_from c s 0 (-1).

Definition splitext (p : str) : str * str :=
  let sepIndex := rfind 47 p in
  let dotIndex := rfind 46 p in
  if (sepIndex <? dotIndex)%Z then
    (* the loop skips the leading dots of the file name and splits at the
       last dot as soon as it meets another character before that dot *)
    let filenameIndex := Z.to_nat (sepIndex + 1) in
    let before_dot := firstn (Z.to_nat dotIndex - filenameIndex)
                             (skipn filenameIndex p) in
    if existsb (fun c => negb (N.eqb c 46)) before_dot
    then (firstn (Z.to_nat dotIndex) p, skipn (Z.to_nat dotIndex) p)
    else (p, [])
  else (p, []).

End Builtins.

(* ===================================================================== *)
(** * A model of [json.loads] *)
(* ===================================================================== *)

(** The decoder of the standard library on a [str] document, following the
    grammar it accepts: JSON values, and the constants NaN, Infinity and
    -Infinity.  Not modelled are the two ways in which the decoder fails
    with something else than [JSONDecodeError]: the recursion limit on deeply
    nested documents and the limit on the number of digits of an integer. *)

Module Json.

Inductive parse (A : Type) :=
| Parsed (a : A) (rest : str)
| Invalid
| Exhausted.
Arguments Parsed {A} a rest.
Arguments Invalid {A}.
Arguments Exhausted {A}.

Definition is_ws (c : N) : bool :=
  ((c =? 32) || (c =? 9) || (c =? 10) || (c =? 13))%N.

Definition skip_ws (s : str) : str := lstrip_by is_ws s.

Definition is_digit (c : N) : bool := ((48 <=? c) && (c <=? 57))%N.

Definition hexval (c : N) : option N :=
  (if is_digit c then Some (c - 48)
   else if (97 <=? c) && (c <=? 102) then Some (c - 87)
   else if (65 <=? c) && (c <=? 70) then Some (c - 55)
   else None)%N.

Definition hex4 (a c d e : N) : option N :=
  match hexval a, hexval c, hexval d, hexval e with
  | Some x, Some y, Some z, Some w => Some (x * 4096 + y * 256 + z * 16 + w)%N
  | _, _, _, _ => None
  end.

Definition high_surrogate (c : N) : bool := ((55296 <=? c) && (c <=? 56319))%N.
Definition low_surrogate (c : N) : bool := ((56320 <=? c) && (c <=? 57343))%N.
Definition join_surrogates (hi lo : N) : N :=
  (65536 + (hi - 55296) * 1024 + (lo - 56320))%N.

(** The character a one-letter escape stands for. *)
Definition escape (c : N) : option N :=
  (if c =? 34 then Some 34            (* quote *)
   else if c =? 92 then Some 92       (* backslash *)
   else if c =? 47 then Some 47       (* slash *)
   else if c =? 98 then Some 8        (* b: backspace *)
   else if c =? 102 then Some 12      (* f: form feed *)
   else if c =? 110 then Some 10      (* n: line feed *)
   else if c =? 114 then Some 13      (* r: carriage return *)
   else if c =? 116 then Some 9       (* t: tab *)
   else None)%N.

(** The string that starts after an opening quote: its content (collected
    in reverse in [acc]) and the text after the closing quote. *)
Fixpoint scanstring (s : str) (acc : str) : option (str * str) :=
  match s with
  | [] => None
  | c :: r =>
      if (c =? 34)%N then Some (rev acc, r)
      else if (c =? 92)%N then
        match r with
        | [] => None
        | e :: r1 =>
            if (e =? 117)%N then
              match r1 with
              | h1 :: h2 :: h3 :: h4 :: r2 =>
                  match hex4 h1 h2 h3 h4 with
                  | None => None
                  | Some cp =>
                      if high_surrogate cp then
                        match r2 with
                        | b1 :: b2 :: g1 :: g2 :: g3 :: g4 :: r3 =>
                            if ((b1 =? 92) && (b2 =? 117))%N then
                              match hex4 g1 g2 g3 g4 with
                              | None => None
                              | Some cp2 =>
                                  if low_surrogate cp2
                                  then scanstring r3
                                         (join_surrogates cp cp2 :: acc)
                                  else scanstring r2 (cp :: acc)
                              end
                            else scanstring r2 (cp :: acc)
                        | _ => scanstring r2 (cp :: acc)
                        end
                      else scanstring r2 (cp :: acc)
                  end
              | _ => None
              end
            else
              match escape e with
              | Some x => scanstring r1 (x :: acc)
              | None => None
              end
        end
      else if (c <? 32)%N then None      (* control character, strict mode *)
      else scanstring r (c :: acc)
  end.

(** Leading decimal digits of [s], and what follows them. *)
Fixpoint digits (s : str) : list N * str :=
  match s with
  | c :: r =>
      if is_digit c then let (ds, r') := digits r in (c :: ds, r')
      else ([], s)
  | [] => ([], [])
  end.

Definition number_of (ds : list N) : N :=
  fold_left (fun n c => n * 10 + (c - 48))%N ds 0%N.

(** Fraction: a dot followed by at least one digit, else nothing is read. *)
Definition fraction (s : str) : list N * str :=
  match s with
  | c :: r =>
      if (c =? 46)%N then
        match digits r with
        | ([], _) => ([], s)
        | (ds, r') => (ds, r')
        end
      else ([], s)
  | [] => ([], s)
  end.

(** Exponent: e or E, an optional sign and at least one digit, else nothing
    is read. *)
Definition exponent (s : str) : option Z * str :=
  match s with
  | c :: r =>
      if ((c =? 101) || (c =? 69))%N then
        let (neg, r1) :=
          match r with
          | sg :: r' =>
              if (sg =? 45)%N then (true, r')
              else if (sg =? 43)%N then (false, r')
              else (false, r)
          | [] => (false, r)
          end in
        match digits r1 with
        | ([], _) => (None, s)
        | (ds, r2) =>
            let x := Z.of_N (number_of ds) in
            (Some (if neg then - x else x)%Z, r2)
        end
      else (None, s)
  | [] => (None, s)
  end.

(** An optional minus sign. *)
Definition sign (s : str) : bool * str :=
  match s with
  | c :: r => if (c =? 45)%N then (true, r) else (false, s)
  | [] => (false, s)
  end.

(** Integer part: a single zero, or digits that start with 1 to 9. *)
Definition integer_part (s : str) : option (list N * str) :=
  match s with
  | c :: r =>
      if (c =? 48)%N then Some ([c], r)
      else if is_digit c then Some (digits s)
      else None
  | [] => None
  end.

(** A number: an [int] when it has neither fraction nor exponent. *)
Definition scan_number (s : str) : parse value :=
  let (neg, s1) := sign s in
  match integer_part s1 with
  | None => Invalid
  | Some (ds, s2) =>
      let (fs, s3) := fraction s2 in
      let (ex, s4) := exponent s3 in
      match fs, ex with
      | [], None =>
          let x := Z.of_N (number_of ds) in
          Parsed (VInt (if neg then - x else x)%Z) s4
      | _, _ =>
          let e := match ex with Some e => e | None => 0%Z end in
          Parsed (VFloat (FDec neg (number_of (ds ++ fs))
                               (e - Z.of_nat (length fs))%Z)) s4
      end
  end.

(** The constant [word] at the head of [s]. *)
Definition constant (word : string) (v : value) (s : str) : option (parse value) :=
  if startswith s (u word)
  then Some (Parsed v (skipn (String.length word) s))
  else None.

Definition scan_atom (s : str) : parse value :=
  match constant "null" VNone s with Some p => p | None =>
  match constant "true" (VBool true) s with Some p => p | None =>
  match constant "false" (VBool false) s with Some p => p | None =>
  match constant "NaN" (VFloat FNaN) s with Some p => p | None =>
  match constant "Infinity" (VFloat (FInf false)) s with Some p => p | None =>
  match constant "-Infinity" (VFloat (FInf true)) s with Some p => p | None =>
  scan_number s
  end end end end end end.

(** One JSON value at the head of [s].  Every call spends one unit of
    [fuel]; [loads] provides enough of it. *)
Fixpoint scan_once (fuel : nat) (s : str) : parse value :=
  match fuel with
  | O => Exhausted
  | S n =>
      match s with
      | [] => Invalid
      | c :: r =>
          if (c =? 34)%N then
            match scanstring r [] with
            | Some (x, r') => Parsed (VStr x) r'
            | None => Invalid
            end
          else if (c =? 123)%N then            (* an object *)
            match skip_ws r with
            | c' :: r' =>
                if (c' =? 125)%N then Parsed (VDict []) r'
                else parse_members n (c' :: r') []
            | [] => Invalid
            end
          else if (c =? 91)%N then             (* an array *)
            match skip_ws r with
            | c' :: r' =>
                if (c' =? 93)%N then Parsed (VList []) r'
                else parse_elements n (c' :: r') []
            | [] => Invalid
            end
          else scan_atom s
      end
  end

(** The elements of an array after its opening bracket, [acc] holding the
    earlier ones in reverse. *)
with parse_elements (fuel : nat) (s : str) (acc : list value) : parse value :=
  match fuel with
  | O => Exhausted
  | S n =>
      match scan_once n s with
      | Parsed v r =>
          match skip_ws r with
          | c :: r' =>
              if (c =? 44)%N then parse_elements n (skip_ws r') (v :: acc)
              else if (c =? 93)%N then Parsed (VList (rev (v :: acc))) r'
              else Invalid
          | [] => Invalid
          end
      | Invalid => Invalid
      | Exhausted => Exhausted
      end
  end

(** The members of an object after its opening brace, [acc] holding the
    earlier ones; a repeated key keeps its place and takes the later value. *)
with parse_members (fuel : nat) (s : str) (acc : dict) : parse value :=
  match fuel with
  | O => Exhausted
  | S n =>
      match s with
      | c :: r =>
          if (c =? 34)%N then
            match scanstring r [] with
            | Some (k, r1) =>
                match skip_ws r1 with
                | c1 :: r2 =>
                    if (c1 =? 58)%N then
                      match scan_once n (skip_ws r2) with
                      | Parsed v r3 =>
                          match skip_ws r3 with
                          | c3 :: r4 =>
                              if (c3 =? 44)%N
                              then parse_members n (skip_ws r4) (dict_set k v acc)
                              else if (c3 =? 125)%N
                              then Parsed (VDict (dict_set k v acc)) r4
                              else Invalid
                          | [] => Invalid
                          end
                      | Invalid => Invalid
                      | Exhausted => Exhausted
                      end
                    else Invalid
                | [] => Invalid
                end
            | None => Invalid
            end
          else Invalid
      | [] => Invalid
      end
  end.

(** [json.loads(s)] for a [str] argument: a byte order mark is refused,
    white space around the value is skipped, anything after it is refused. *)
Definition loads (wording : fault -> str) (s : str) : result value :=
  if startswith s [65279%N] then Builtins.fail wording (InvalidJson s)
  else
    match scan_once (2 * length s + 1) (skip_ws s) with
    | Parsed v r =>
        match skip_ws r with
        | [] => Ok v
        | _ :: _ => Builtins.fail wording (InvalidJson s)
        end
    | Invalid | Exhausted => Builtins.fail wording (InvalidJson s)
    end.

End Json.

(* ===================================================================== *)
(** * The provider: [novita_gradio.py] *)
(* ===================================================================== *)

Module Novita.

Import Builtins.

(** ** The outside world *)

(** The arguments of [requests.post]. *)
Record request := Request {
  url : str;
  headers : list (str * str);
  json : value;
  stream : bool
}.

(** What the HTTP exchange does: [requests.post] raises, or it returns a
    response, of which the program uses [raise_for_status()] (raising
    [status], if any) and [iter_lines()] (yielding [lines] and then raising
    [broken], if any). *)
Inductive response :=
| Refused (e : raised)
| Answered (status : option raised) (lines : list bytes) (broken : option raised).

(** A generator that has been run to its end: the values it yielded, in
    order, and the exception that ended it, if it did not return. *)
Record generator := Generator {
  yields : list str;
  ending : option raised
}.

(** A chat history: pairs of a user message and an assistant message, the
    latter [VNone] when absent. *)
Definition chat_history := list (value * value).

(** ** Module constants *)

Definition NOVITA_API_BASE_URL : str := u "https://api.novita.ai/v3/openai".

Definition default_prompt : str :=
  u "You are a helpful, harmless, and honest AI assistant.".

Definition coder_prompt : str :=
  u "You are an expert web developer specializing in creating clean, efficient, and modern web applications.
Your task is to write complete, self-contained HTML files that include all necessary CSS and JavaScript.
Focus on:
- Writing clear, maintainable code
- Following best practices
- Creating responsive designs
- Adding appropriate styling and interactivity
Return only the complete HTML code without any additional explanation.".

Definition SYSTEM_PROMPTS : dict :=
  [(u "default", VStr default_prompt); (u "coder", VStr coder_prompt)].

(** Truth value of an optional [str], as [if x:] and [not x] test it:
    [None] and the empty text are false.  [or_else x y] is [x or y]. *)
Definition given (x : option str) : bool :=
  match x with
  | Some (_ :: _) => true
  | _ => false
  end.

Definition or_else (x y : option str) : option str :=
  if given x then x else y.

Section Program.

(** The interpreter's wording of its own failures, its [repr], the JSON
    decoder, the file system, the process environment and the network.
    [open_rb path] is what [open(path, "rb")] followed by [read()] gives:
    the bytes of the file, or the exception raised, whose class depends on
    the path and on the file system ([FileNotFoundError], [PermissionError],
    [IsADirectoryError], [ValueError] for a path with a null character). *)
Variable wording : fault -> str.
Variable repr : value -> str.
Variable json_loads : str -> result value.
Variable open_rb : str -> result bytes.
Variable environ : str -> option str.
Variable post : request -> response.

(** [str(v)]: a [str] is itself, anything else its [repr]. *)
Definition py_str (v : value) : str :=
  match v with
  | VStr s => s
  | _ => repr v
  end.

(** ** [get_image_base64] *)

Definition get_image_base64 (url : str) (ext : str) : result str :=
  image_file <- open_rb url ;;
  let encoded_string := b64encode image_file in
  Ok (u "data:image/" ++ ext ++ u ";base64," ++ encoded_string).

(** ** [get_fn] and the generator function [fn] it returns *)

Section get_fn.

Variable model_name : str.
Variable preprocess : value -> chat_history -> option str -> value.
Variable postprocess : str -> str.
Variable api_key : str.
Variable system_prompt : option str.

(** Lines 62 to 65: what a decoded chunk does to the accumulator, and what
    is yielded. *)
Definition on_chunk (partial_message : str) (chunk : value)
  : result (str * list str) :=
  choices <- getitem wording chunk (KStr (u "choices")) ;;
  if truthy choices then
    first <- getitem wording choices (KInt 0) ;;
    first_delta <- getitem wording first (KStr (u "delta")) ;;
    delta <- get wording first_delta (u "content") (VStr []) ;;
    partial_message <- iadd wording partial_message delta ;;
    Ok (partial_message, [postprocess partial_message])
  else Ok (partial_message, []).

(** [except json.JSONDecodeError: continue] around lines 61 to 65. *)
Definition skipping_decode_errors (partial_message : str)
  (r : result (str * list str)) : result (str * list str) :=
  match r with
  | Ok x => Ok x
  | Err e => if is_JSONDecodeError e then Ok (partial_message, []) else Err e
  end.

(** Lines 56 to 67: the body of the loop for one line of the response. *)
Definition on_line (partial_message : str) (line : bytes)
  : result (str * list str) :=
  match line with
  | [] => Ok (partial_message, [])
  | _ :: _ =>
      line <- decode wording line ;;
      if startswith line (u "data:") && negb (str_eqb line (u "data: [DONE]"))
      then
        let json_str := strip (skipn 5 line) in
        skipping_decode_errors partial_message
          (chunk <- json_loads json_str ;; on_chunk partial_message chunk)
      else Ok (partial_message, [])
  end.

(** Line 55: the loop over [response.iter_lines()]. *)
Fixpoint for_lines (partial_message : str) (lines : list bytes)
  (broken : option raised) : generator :=
  match lines with
  | [] => {| yields := []; ending := broken |}
  | line :: rest =>
      match on_line partial_message line with
      | Ok (partial_message', out) =>
          let g := for_lines partial_message' rest broken in
          {| yields := out ++ yields g; ending := ending g |}
      | Err e => {| yields := []; ending := Some e |}
      end
  end.

(** Lines 40 to 50: the arguments of [requests.post]. *)
Definition completion_request (headers : list (str * str)) (messages : value)
  : request :=
  {| url := NOVITA_API_BASE_URL ++ u "/chat/completions";
     headers := headers;
     json := VDict [(u "model", VStr model_name);
                    (u "messages", messages);
                    (u "stream", VBool true);
                    (u "max_tokens", VInt 1000)];
     stream := true |}.

(** Lines 40 to 67: the body of the [try]. *)
Definition try_body (inputs : value) (headers : list (str * str)) : generator :=
  match getitem wording inputs (KStr (u "messages")) with
  | Err e => {| yields := []; ending := Some e |}
  | Ok messages =>
      match post (completion_request headers messages) with
      | Refused e => {| yields := []; ending := Some e |}
      | Answered (Some e) _ _ => {| yields := []; ending := Some e |}
      | Answered None lines broken => for_lines [] lines broken
      end
  end.

(** Lines 69 to 71: [except Exception as e: yield f"Error: {str(e)}"]. *)
Definition except_Exception (g : generator) : generator :=
  match ending g with
  | Some e =>
      if is_Exception e
      then {| yields := yields g ++ [u "Error: " ++ descr e]; ending := None |}
      else g
  | None => g
  end.

Definition request_headers : list (str * str) :=
  [(u "Content-Type", u "application/json");
   (u "Authorization", u "Bearer " ++ api_key)].

Definition fn (message : value) (history : chat_history) : generator :=
  let inputs := preprocess message history system_prompt in
  let headers := request_headers in
  except_Exception (try_body inputs headers).

Definition get_fn : value -> chat_history -> generator := fn.

End get_fn.

(** ** [handle_user_msg] *)

Definition image_kinds : list str := [u "png"; u "jpg"; u "jpeg"; u "gif"].

(** The argument of [os.path.splitext] has to be a path. *)
Definition as_path (v : value) : result str :=
  match v with
  | VStr p => Ok p
  | _ => fail wording (NotAPath (type_of v))
  end.

Definition handle_user_msg (message : value) : result value :=
  match message with
  | VStr _ => Ok message
  | VDict _ =>
      files <- getitem wording message (KStr (u "files")) ;;
      has_files <- match files with
                   | VNone => Ok false
                   | _ => n <- len wording files ;; Ok (0 <? n)
                   end ;;
      if has_files : bool then
        last_file <- getitem wording files (KInt (-1)) ;;
        path <- as_path last_file ;;
        let ext := strip_dots (snd (splitext path)) in
        if mem_str (lower ext) image_kinds then
          encoded_str <- get_image_base64 path ext ;;
          text <- getitem wording message (KStr (u "text")) ;;
          Ok (VList [VDict [(u "type", VStr (u "text")); (u "text", text)];
                     VDict [(u "type", VStr (u "image_url"));
                            (u "image_url", VDict [(u "url", VStr encoded_str)])]])
        else
          Err {| cls := NotImplementedError;
                 descr := u "Not supported file type " ++ ext |}
      else getitem wording message (KStr (u "text"))
  | _ => Err {| cls := NotImplementedError; descr := [] |}
  end.

(** ** [get_interface_args] and its [preprocess] *)

Definition message_of (role : string) (content : value) : value :=
  VDict [(u "role", VStr (u role)); (u "content", content)].

(** What one history entry appends to the message list. *)
Definition turn (messages : list value) (entry : value * value) : list value :=
  let (user_msg, assistant_msg) := entry in
  let messages := messages ++ [message_of "user" (VStr (py_str user_msg))] in
  match assistant_msg with
  | VNone => messages
  | _ => messages ++ [message_of "assistant" (VStr (py_str assistant_msg))]
  end.

Definition build_messages (message : value) (history : chat_history)
  (system_prompt : option str) : list value :=
  let messages := [] in
  let messages :=
    match system_prompt with
    | Some (c :: s) => messages ++ [message_of "system" (VStr (c :: s))]
    | _ => messages
    end in
  let messages := fold_left turn history messages in
  messages ++ [message_of "user" (VStr (py_str message))].

Definition preprocess (message : value) (history : chat_history)
  (system_prompt : option str) : value :=
  VDict [(u "messages", VList (build_messages message history system_prompt))].

Definition postprocess (x : str) : str := x.

Record interface_args := InterfaceArgs {
  inputs : value;
  outputs : value;
  args_preprocess : value -> chat_history -> option str -> value;
  args_postprocess : str -> str
}.

Definition get_interface_args (pipeline : str) (system_prompt : option str)
  : result interface_args :=
  if str_eqb pipeline (u "chat") then
    Ok {| inputs := VNone; outputs := VNone;
          args_preprocess := preprocess; args_postprocess := postprocess |}
  else
    Err {| cls := ValueError;
           descr := u "Unsupported pipeline type: " ++ pipeline |}.

Definition get_pipeline (model_name : str) : str := u "chat".

(** ** [registry] *)

(** The Gradio object that [registry] returns: the widget kind, the
    function it is bound to and the options passed through. *)
Inductive interface :=
| ChatInterface (fn : value -> chat_history -> generator) (kwargs : dict)
| Interface (fn : value -> chat_history -> generator) (inputs outputs : value)
            (kwargs : dict).

(** Gradio's side of lines 153 and 156: the exception that the constructor
    raises on these arguments, if it raises one.  It rejects options it does
    not know and values it cannot use, and it may call [fn] (on examples it
    is asked to cache), so its answer depends on both arguments. *)
Variable ChatInterface_init :
  (value -> chat_history -> generator) -> dict -> option raised.
Variable Interface_init :
  (value -> chat_history -> generator) -> value -> value -> dict
  -> option raised.

(** The interpreter's side of a call [callee(name=..., **kwargs)]: a name
    given both ways is a [TypeError], raised before the callee is entered. *)
Definition keywords (callee : str) (named : list str) (kwargs : dict)
  : result unit :=
  match find (fun k => mem_str k named) (map fst kwargs) with
  | Some name => fail wording (RepeatedKeyword callee name)
  | None => Ok tt
  end.

(** Line 153: [gr.ChatInterface(fn=fn, **kwargs)]. *)
Definition new_ChatInterface (fn : value -> chat_history -> generator)
  (kwargs : dict) : result interface :=
  _ <- keywords (u "ChatInterface") [u "fn"] kwargs ;;
  match ChatInterface_init fn kwargs with
  | Some e => Err e
  | None => Ok (ChatInterface fn kwargs)
  end.

(** Line 156: [gr.Interface(fn=fn, inputs=inputs, outputs=outputs, **kwargs)]. *)
Definition new_Interface (fn : value -> chat_history -> generator)
  (inputs outputs : value) (kwargs : dict) : result interface :=
  _ <- keywords (u "Interface") [u "fn"; u "inputs"; u "outputs"] kwargs ;;
  match Interface_init fn inputs outputs kwargs with
  | Some e => Err e
  | None => Ok (Interface fn inputs outputs kwargs)
  end.

Definition registry (name : str) (token : option str) (coder : bool)
  (kwargs : dict) : result interface :=
  let api_key := or_else token (environ (u "NOVITA_API_KEY")) in
  if negb (given api_key) then
    Err {| cls := ValueError;
           descr := u "NOVITA_API_KEY environment variable is not set." |}
  else
    let api_key := match api_key with Some k => k | None => [] end in
    system_prompt <- getitem wording (VDict SYSTEM_PROMPTS)
                       (KStr (if coder then u "coder" else u "default")) ;;
    let system_prompt :=
      match system_prompt with VStr s => Some s | _ => None end in
    let pipeline := get_pipeline name in
    args <- get_interface_args pipeline system_prompt ;;
    let fn := get_fn name (args_preprocess args) (args_postprocess args)
                     api_key system_prompt in
    if str_eqb pipeline (u "chat")
    then new_ChatInterface fn kwargs
    else new_Interface fn (inputs args) (outputs args) kwargs.

(** The request that a call of [fn] posts when it is given the [preprocess]
    of the chat pipeline, as it is by [registry]. *)
Definition sent (model_name api_key : str) (system_prompt : option str)
  (message : value) (history : chat_history) : request :=
  completion_request model_name (request_headers api_key)
    (VList (build_messages message history system_prompt)).

End Program.

End Novita.

(* ===================================================================== *)
(** * Notions used in the statements *)
(* ===================================================================== *)

Module Stream.

Import Builtins Novita.

(** [prefix_of x y]: the text [y] starts with the text [x]. *)
Definition prefix_of (x y : str) : Prop := exists t, y = x ++ t.

(** Every value of the list extends the one before it, the first one
    extending [prev]. *)
Fixpoint extends_from (prev : str) (l : list str) : Prop :=
  match l with
  | [] => True
  | x :: r => prefix_of prev x /\ extends_from x r
  end.

(** The cumulative snapshots of a sequence of deltas appended to [acc]. *)
Fixpoint snapshots (acc : str) (deltas : list str) : list str :=
  match deltas with
  | [] => []
  | d :: r => (acc ++ d) :: snapshots (acc ++ d) r
  end.

(** The sentinel line. *)
Definition DONE : bytes := b "data: [DONE]".

(** An exception that the inner handler lets through and the outer one
    catches: an [Exception] that is no [JSONDecodeError]. *)
Definition escapes (e : raised) : Prop :=
  is_JSONDecodeError e = false /\ is_Exception e = true.

(** The delta text of a chunk of the expected shape: a dict whose choices
    are a list that starts with a dict, whose delta is a dict, whose content
    is a [str] or missing. *)
Definition content_of (chunk : value) : option str :=
  match chunk with
  | VDict d =>
      match dict_lookup (u "choices") d with
      | Some (VList (VDict choice :: _)) =>
          match dict_lookup (u "delta") choice with
          | Some (VDict delta) =>
              match dict_lookup (u "content") delta with
              | Some (VStr s) => Some s
              | Some _ => None
              | None => Some []
              end
          | _ => None
          end
      | _ => None
      end
  | _ => None
  end.

(** The chunk has a first choice with a delta, and the delta is a dict
    without content. *)
Definition lacks_content (chunk : value) : bool :=
  match chunk with
  | VDict d =>
      match dict_lookup (u "choices") d with
      | Some (VList (VDict choice :: _)) =>
          match dict_lookup (u "delta") choice with
          | Some (VDict delta) =>
              match dict_lookup (u "content") delta with
              | None => true
              | Some _ => false
              end
          | _ => false
          end
      | _ => false
      end
  | _ => false
  end.

(** The choices of the chunk are the empty list. *)
Definition no_choices (chunk : value) : bool :=
  match chunk with
  | VDict d =>
      match dict_lookup (u "choices") d with
      | Some (VList []) => true
      | _ => false
      end
  | _ => false
  end.

(** The key whose lookup fails: choices when the chunk is a dict without
    it, delta when the first choice is a dict without it. *)
Definition missing_key (chunk : value) : option str :=
  match chunk with
  | VDict d =>
      match dict_lookup (u "choices") d with
      | None => Some (u "choices")
      | Some (VList (VDict choice :: _)) =>
          match dict_lookup (u "delta") choice with
          | None => Some (u "delta")
          | Some _ => None
          end
      | Some _ => None
      end
  | _ => None
  end.

Section Frames.

Variable json_loads : str -> result value.

(** The text of a line that is valid UTF-8. *)
Definition text_of (line : bytes) : option str := utf8 (map Byte.to_N line).

(** The chunk carried by a data frame: the line is text that starts with
    the data prefix, is not the sentinel, and whose payload the decoder
    accepts. *)
Definition chunk_of (line : bytes) : option value :=
  match text_of line with
  | Some text =>
      if startswith text (u "data:") && negb (str_eqb text (u "data: [DONE]"))
      then match json_loads (strip (skipn 5 text)) with
           | Ok chunk => Some chunk
           | Err _ => None
           end
      else None
  | None => None
  end.

(** A valid frame and the delta it contributes. *)
Definition delta_of (line : bytes) : option str :=
  match chunk_of line with
  | Some chunk => content_of chunk
  | None => None
  end.

(** A malformed frame: a line of text with the data prefix whose payload
    the decoder refuses with [JSONDecodeError]. *)
Definition malformed (line : bytes) : bool :=
  match text_of line with
  | Some text =>
      startswith text (u "data:")
      && match json_loads (strip (skipn 5 text)) with
         | Ok _ => false
         | Err e => is_JSONDecodeError e
         end
  | None => false
  end.

End Frames.

(** The messages of one complete history entry, and the system message of
    a prompt that is given. *)
Definition pair_messages (repr : value -> str) (entry : value * value)
  : list value :=
  [message_of "user" (VStr (py_str repr (fst entry)));
   message_of "assistant" (VStr (py_str repr (snd entry)))].

Definition system_messages (system_prompt : option str) : list value :=
  match system_prompt with
  | Some s => if given system_prompt then [message_of "system" (VStr s)] else []
  | None => []
  end.

(** The extension of an attachment, as [handle_user_msg] takes it, and
    whether it is one of the image kinds, whatever its case. *)
Definition extension (path : str) : str := strip_dots (snd (splitext path)).

Definition is_image_kind (ext : str) : bool := mem_str (lower ext) image_kinds.

(** The content that [handle_user_msg] returns for a text with an image. *)
Definition image_content (text : value) (uri : str) : value :=
  VList [VDict [(u "type", VStr (u "text")); (u "text", text)];
         VDict [(u "type", VStr (u "image_url"));
                (u "image_url", VDict [(u "url", VStr uri)])]].

(** Concrete surroundings for closed statements: an interpreter that words
    every failure and every [repr] as a question mark, and an exchange that
    answers every request with the given lines. *)
Definition plain_wording (f : fault) : str := u "?".
Definition plain_repr (v : value) : str := u "?".
Definition answering (lines : list bytes) (broken : option raised)
  (r : request) : response := Answered None lines broken.
Definition refusing (e : raised) (r : request) : response := Refused e.
Definition nothing_set (name : str) : option str := None.
Definition one_file (path : str) (data : bytes) (p : str) : result bytes :=
  if str_eqb p path then Ok data
  else Err {| cls := OSError;
              descr := u "[Errno 2] No such file or directory: '" ++ p
                       ++ u "'" |}.

(** A Gradio whose chat widget takes a title and a description and rejects
    any other option, and whose plain interface takes every option. *)
Definition chat_options (fn : value -> chat_history -> generator)
  (kwargs : dict) : option raised :=
  match find (fun k => negb (mem_str k [u "title"; u "description"]))
             (map fst kwargs) with
  | Some k =>
      Some {| cls := TypeError;
              descr := u "ChatInterface.__init__() got an unexpected keyword argument '"
                       ++ k ++ u "'" |}
  | None => None
  end.
Definition any_options (fn : value -> chat_history -> generator)
  (inputs outputs : value) (kwargs : dict) : option raised := None.

(** A decoder that gives up on a payload that opens three lists at once, as
    the interpreter's decoder does at its recursion limit, and otherwise
    decodes as [Json.loads] does. *)
Definition shallow_loads (s : str) : result value :=
  if startswith s (u "[[[")
  then Err {| cls := OtherException;
              descr := u "maximum recursion depth exceeded" |}
  else Json.loads plain_wording s.

(** A call of [fn] with the decoder [Json.loads], on a network that answers
    with the given lines. *)
Definition example_call (lines : list bytes) (broken : option raised)
  : generator :=
  fn plain_wording (Json.loads plain_wording) (answering lines broken)
     (u "model") (preprocess plain_repr) postprocess (u "key") None
     (VStr (u "hello")) [].

(** ** Further notions *)

(** The list [zs] starts with the list [ys]. *)
Definition begins (ys zs : list str) : Prop := exists more, zs = ys ++ more.

(** A line the loop passes over without decoding it: the empty line, and
    text that lacks the data prefix or is the sentinel. *)
Definition ignored (line : bytes) : bool :=
  match line with
  | [] => true
  | _ :: _ =>
      match text_of line with
      | Some text =>
          negb (startswith text (u "data:"))
          || str_eqb text (u "data: [DONE]")
      | None => false
      end
  end.

(** The chunk is a dict whose choices are false as a condition: [None],
    [False], zero, or an empty text, list or dict. *)
Definition falsy_choices (chunk : value) : bool :=
  match chunk with
  | VDict d =>
      match dict_lookup (u "choices") d with
      | Some v => negb (truthy v)
      | None => false
      end
  | _ => false
  end.

(** The content of the delta of the first choice, when the chunk has one. *)
Definition content_value (chunk : value) : option value :=
  match chunk with
  | VDict d =>
      match dict_lookup (u "choices") d with
      | Some (VList (VDict choice :: _)) =>
          match dict_lookup (u "delta") choice with
          | Some (VDict delta) => dict_lookup (u "content") delta
          | _ => None
          end
      | _ => None
      end
  | _ => None
  end.

(** The first choice of a chunk whose choices are a non-empty list. *)
Definition first_choice (chunk : value) : option value :=
  match chunk with
  | VDict d =>
      match dict_lookup (u "choices") d with
      | Some (VList (c :: _)) => Some c
      | _ => None
      end
  | _ => None
  end.

Section Quiet.

Variable json_loads : str -> result value.

(** A line that yields nothing and leaves the accumulator as it is: an
    ignored line, a malformed frame, or a frame with false choices. *)
Definition quiet (line : bytes) : bool :=
  ignored line
  || malformed json_loads line
  || match chunk_of json_loads line with
     | Some chunk => falsy_choices chunk
     | None => false
     end.

(** The deltas of the valid frames among the lines, in order. *)
Definition deltas (lines : list bytes) : list str :=
  flat_map (fun l => match delta_of json_loads l with
                     | Some d => [d]
                     | None => []
                     end) lines.

End Quiet.

(** What [fn] does with the outcome of [requests.post]. *)
Definition handle_response (wording : fault -> str)
  (json_loads : str -> result value) (r : response) : generator :=
  except_Exception
    match r with
    | Refused e => {| yields := []; ending := Some e |}
    | Answered (Some e) _ _ => {| yields := []; ending := Some e |}
    | Answered None lines broken =>
        for_lines wording json_loads postprocess [] lines broken
    end.

(** The messages of one history entry, whether or not the assistant side is
    present. *)
Definition entry_messages (repr : value -> str) (entry : value * value)
  : list value :=
  message_of "user" (VStr (py_str repr (fst entry)))
  :: match snd entry with
     | VNone => []
     | _ => [message_of "assistant" (VStr (py_str repr (snd entry)))]
     end.

Definition has_assistant (entry : value * value) : bool :=
  match snd entry with
  | VNone => false
  | _ => true
  end.

(** A message of one of the three roles whose content is a text. *)
Definition text_message (m : value) : Prop :=
  exists role s,
    (role = "system" \/ role = "user" \/ role = "assistant")%string
    /\ m = message_of role (VStr s).

(** The role of a message. *)
Definition role_of (m : value) : option value :=
  match m with
  | VDict d => dict_lookup (u "role") d
  | _ => None
  end.

(** The head of a data URI for the extension [ext]. *)
Definition uri_head (ext : str) : str :=
  u "data:image/" ++ ext ++ u ";base64,".

End Stream.

(* ===================================================================== *)
(** * Properties *)
(* ===================================================================== *)

Module Facts.

Import Builtins Novita Stream.

(** Case analysis on the first [match] or [if] met in the goal or in a
    hypothesis. *)
Ltac split_match :=
  match goal with
  | |- context [match ?x with _ => _ end] => destruct x eqn:?
  | H : context [match ?x with _ => _ end] |- _ => destruct x eqn:?
  end.

Ltac inv H := inversion H; subst; clear H.

(** ** Texts and lists *)

Lemma str_eqb_refl (s : str) : str_eqb s s = true.
Proof.
  induction s as [|c s IH]; simpl; [reflexivity|].
  now rewrite N.eqb_refl, IH.
Qed.

Lemma str_eqb_eq (x y : str) : str_eqb x y = true -> x = y.
Proof.
  revert y; induction x as [|a x IH]; intros [|c y]; simpl; try easy.
  intros H; apply andb_prop in H as [Hac Hxy].
  apply N.eqb_eq in Hac; subst; f_equal; auto.
Qed.

Lemma prefix_of_refl (x : str) : prefix_of x x.
Proof. exists []; now rewrite app_nil_r. Qed.

Lemma prefix_of_app (x d : str) : prefix_of x (x ++ d).
Proof. now exists d. Qed.

Lemma last_cons_default {A} (x d : A) (l : list A) :
  last (x :: l) d = last l x.
Proof.
  revert x d; induction l as [|y l IH]; intros x d; [reflexivity|].
  change (last (x :: y :: l) d) with (last (y :: l) d).
  now rewrite (IH y d), (IH y x).
Qed.

(** ** The decoder

    The scanner of [Json.loads] runs on fuel.  Every value it reads takes at
    least one character, so the fuel that [loads] provides is never used
    up, and [loads] fails with [JSONDecodeError] only. *)

Module Decoder.

Import Json.

Lemma lstrip_by_length (p : N -> bool) (s : str) :
  length (lstrip_by p s) <= length s.
Proof.
  induction s as [|c s IH]; simpl; [lia|].
  destruct (p c); simpl; lia.
Qed.

Lemma skip_ws_length (s : str) : length (skip_ws s) <= length s.
Proof. apply lstrip_by_length. Qed.

Lemma scanstring_consumes (n : nat) :
  forall s acc x r,
    length s <= n -> scanstring s acc = Some (x, r) -> length r < length s.
Proof.
  induction n as [|n IH]; intros s acc x r Hn H.
  - destruct s; [discriminate | simpl in Hn; lia].
  - destruct s as [|c s]; [discriminate|].
    simpl in H, Hn.
    repeat (split_match; try discriminate);
      try (inv H; simpl; lia);
      subst; apply IH in H; simpl in *; lia.
Qed.

Lemma digits_split (s : str) :
  forall ds r, digits s = (ds, r) -> s = ds ++ r.
Proof.
  induction s as [|c s IH]; intros ds r H; simpl in H.
  - now inv H.
  - destruct (is_digit c).
    + destruct (digits s) as [ds' r'] eqn:E; inv H.
      simpl; f_equal; now apply IH.
    + now inv H.
Qed.

Lemma digits_length (s : str) (ds : list N) (r : str) :
  digits s = (ds, r) -> length s = length ds + length r.
Proof. intros H; apply digits_split in H; subst; apply length_app. Qed.

Lemma fraction_length (s : str) (fs : list N) (r : str) :
  fraction s = (fs, r) -> length r <= length s.
Proof.
  unfold fraction; intros H.
  repeat (split_match; try discriminate); inv H; simpl; try lia.
  match goal with E : digits _ = _ |- _ => apply digits_length in E end.
  simpl in *; lia.
Qed.

Lemma exponent_length (s : str) (ex : option Z) (r : str) :
  exponent s = (ex, r) -> length r <= length s.
Proof.
  unfold exponent; intros H.
  repeat (split_match; try discriminate);
    repeat match goal with E : (_, _) = (_, _) |- _ => inv E end;
    simpl; try lia;
    match goal with E : digits _ = _ |- _ => apply digits_length in E end;
    simpl in *; lia.
Qed.

Lemma sign_length (s : str) (neg : bool) (r : str) :
  sign s = (neg, r) -> length r <= length s.
Proof.
  unfold sign; intros H.
  repeat (split_match; try discriminate); inv H; simpl; lia.
Qed.

Lemma integer_part_consumes (s : str) (ds : list N) (r : str) :
  integer_part s = Some (ds, r) -> length r < length s.
Proof.
  destruct s as [|c s]; [discriminate|]; unfold integer_part.
  destruct (c =? 48)%N; [intros H; inv H; simpl; lia|].
  destruct (is_digit c) eqn:Hc; [|discriminate].
  intros H; injection H as Hd.
  simpl in Hd; rewrite Hc in Hd.
  destruct (digits s) as [ds' r'] eqn:E; inv Hd.
  apply digits_length in E; simpl; lia.
Qed.

Lemma scan_number_consumes (s : str) (v : value) (r : str) :
  scan_number s = Parsed v r -> length r < length s.
Proof.
  unfold scan_number.
  destruct (sign s) as [neg s1] eqn:E1.
  destruct (integer_part s1) as [[ds s2]|] eqn:E2; [|discriminate].
  destruct (fraction s2) as [fs s3] eqn:E3.
  destruct (exponent s3) as [ex s4] eqn:E4.
  apply sign_length in E1; apply integer_part_consumes in E2.
  apply fraction_length in E3; apply exponent_length in E4.
  intros H; assert (r = s4) by (destruct fs, ex; now inv H); subst; lia.
Qed.

Lemma constant_consumes (word : string) (c : value) (s : str) (v : value)
  (r : str) :
  word <> EmptyString ->
  constant word c s = Some (Parsed v r) -> length r < length s.
Proof.
  unfold constant; intros Hw H.
  destruct (startswith s (u word)) eqn:Hs; [|discriminate]; inv H.
  destruct word as [|a w]; [congruence|].
  destruct s as [|x s]; [discriminate|].
  simpl; pose proof (length_skipn (String.length w) s); lia.
Qed.

Lemma constant_parsed (word : string) (c : value) (s : str) (p : parse value) :
  constant word c s = Some p -> exists r, p = Parsed c r.
Proof.
  unfold constant; destruct (startswith s (u word)); [|discriminate].
  intros H; inv H; eauto.
Qed.

Lemma scan_atom_consumes (s : str) (v : value) (r : str) :
  scan_atom s = Parsed v r -> length r < length s.
Proof.
  unfold scan_atom; intros H.
  repeat match type of H with
         | match constant ?w ?c s with _ => _ end = _ =>
             destruct (constant w c s) as [p|] eqn:?;
             [subst; eapply constant_consumes; [|eassumption]; discriminate|]
         end.
  exact (scan_number_consumes _ _ _ H).
Qed.

Lemma scan_atom_not_exhausted (s : str) : scan_atom s <> Exhausted.
Proof.
  unfold scan_atom.
  repeat match goal with
         | |- match constant ?w ?c s with _ => _ end <> _ =>
             let E := fresh "E" in
             destruct (constant w c s) as [p|] eqn:E;
             [apply constant_parsed in E as [r ->]; discriminate|]
         end.
  unfold scan_number.
  destruct (sign s) as [neg s1].
  destruct (integer_part s1) as [[ds s2]|]; [|easy].
  destruct (fraction s2) as [fs s3]; destruct (exponent s3) as [ex s4].
  destruct fs, ex; easy.
Qed.

(** A value that is read takes at least one character. *)
Lemma scan_consumes (fuel : nat) :
  (forall s v r, scan_once fuel s = Parsed v r -> length r < length s)
  /\ (forall s acc v r,
         parse_elements fuel s acc = Parsed v r -> length r < length s)
  /\ (forall s acc v r,
         parse_members fuel s acc = Parsed v r -> length r < length s).
Proof.
  induction fuel as [|n (IHv & IHe & IHm)];
    [repeat split; intros; discriminate|].
  repeat split.
  - intros s v r H; destruct s as [|c s]; [discriminate|].
    cbn [scan_once] in H.
    destruct (c =? 34)%N.
    { destruct (scanstring s []) as [[x r']|] eqn:E; [|discriminate].
      inv H; apply (scanstring_consumes (length s)) in E; simpl; lia. }
    destruct (c =? 123)%N.
    { pose proof (skip_ws_length s).
      destruct (skip_ws s) as [|c' r']; [discriminate|].
      destruct (c' =? 125)%N; [inv H; simpl in *; lia|].
      apply IHm in H; simpl in *; lia. }
    destruct (c =? 91)%N.
    { pose proof (skip_ws_length s).
      destruct (skip_ws s) as [|c' r']; [discriminate|].
      destruct (c' =? 93)%N; [inv H; simpl in *; lia|].
      apply IHe in H; simpl in *; lia. }
    exact (scan_atom_consumes _ _ _ H).
  - intros s acc v r H; cbn [parse_elements] in H.
    destruct (scan_once n s) as [x r1| |] eqn:E; try discriminate.
    apply IHv in E; pose proof (skip_ws_length r1).
    destruct (skip_ws r1) as [|c r2]; [discriminate|].
    destruct (c =? 44)%N.
    { apply IHe in H; pose proof (skip_ws_length r2); simpl in *; lia. }
    destruct (c =? 93)%N; [|discriminate].
    inv H; simpl in *; lia.
  - intros s acc v r H; cbn [parse_members] in H.
    destruct s as [|c s]; [discriminate|].
    destruct (c =? 34)%N; [|discriminate].
    destruct (scanstring s []) as [[k r1]|] eqn:E; [|discriminate].
    apply (scanstring_consumes (length s)) in E; [|lia].
    pose proof (skip_ws_length r1).
    destruct (skip_ws r1) as [|c1 r2]; [discriminate|].
    destruct (c1 =? 58)%N; [|discriminate].
    pose proof (skip_ws_length r2).
    destruct (scan_once n (skip_ws r2)) as [x r3| |] eqn:Ev; try discriminate.
    apply IHv in Ev; pose proof (skip_ws_length r3).
    destruct (skip_ws r3) as [|c3 r4]; [discriminate|].
    destruct (c3 =? 44)%N.
    { apply IHm in H; pose proof (skip_ws_length r4); simpl in *; lia. }
    destruct (c3 =? 125)%N; [|discriminate].
    inv H; simpl in *; lia.
Qed.

(** Fuel of twice the length of the text, and a little, is never used up. *)
Lemma scan_enough (fuel : nat) :
  (forall s, 2 * length s + 1 <= fuel -> scan_once fuel s <> Exhausted)
  /\ (forall s acc,
         2 * length s + 2 <= fuel -> parse_elements fuel s acc <> Exhausted)
  /\ (forall s acc,
         2 * length s + 1 <= fuel -> parse_members fuel s acc <> Exhausted).
Proof.
  induction fuel as [|n (IHv & IHe & IHm)]; [repeat split; intros; lia|].
  repeat split.
  - intros s Hn; destruct s as [|c s]; [discriminate|].
    cbn [scan_once]; simpl in Hn.
    destruct (c =? 34)%N.
    { destruct (scanstring s []) as [[x r']|]; discriminate. }
    destruct (c =? 123)%N.
    { pose proof (skip_ws_length s).
      destruct (skip_ws s) as [|c' r']; [discriminate|].
      destruct (c' =? 125)%N; [discriminate|].
      apply IHm; simpl in *; lia. }
    destruct (c =? 91)%N.
    { pose proof (skip_ws_length s).
      destruct (skip_ws s) as [|c' r']; [discriminate|].
      destruct (c' =? 93)%N; [discriminate|].
      apply IHe; simpl in *; lia. }
    apply scan_atom_not_exhausted.
  - intros s acc Hn; cbn [parse_elements].
    destruct (scan_once n s) as [x r1| |] eqn:E; [|discriminate|].
    + apply (proj1 (scan_consumes n)) in E; pose proof (skip_ws_length r1).
      destruct (skip_ws r1) as [|c r2]; [discriminate|].
      destruct (c =? 44)%N.
      { apply IHe; pose proof (skip_ws_length r2); simpl in *; lia. }
      destruct (c =? 93)%N; discriminate.
    + exfalso; revert E; apply IHv; lia.
  - intros s acc Hn; cbn [parse_members].
    destruct s as [|c s]; [discriminate|]; simpl in Hn.
    destruct (c =? 34)%N; [|discriminate].
    destruct (scanstring s []) as [[k r1]|] eqn:E; [|discriminate].
    apply (scanstring_consumes (length s)) in E; [|lia].
    pose proof (skip_ws_length r1).
    destruct (skip_ws r1) as [|c1 r2]; [discriminate|].
    destruct (c1 =? 58)%N; [|discriminate].
    pose proof (skip_ws_length r2).
    destruct (scan_once n (skip_ws r2)) as [x r3| |] eqn:Ev; [|discriminate|].
    + apply (proj1 (scan_consumes n)) in Ev; pose proof (skip_ws_length r3).
      destruct (skip_ws r3) as [|c3 r4]; [discriminate|].
      destruct (c3 =? 44)%N.
      { apply IHm; pose proof (skip_ws_length r4); simpl in *; lia. }
      destruct (c3 =? 125)%N; discriminate.
    + exfalso; revert Ev; apply IHv; simpl in *; lia.
Qed.

(** [loads] gives its scanner enough fuel. *)
Lemma loads_fuel (s : str) :
  scan_once (2 * length s + 1) (skip_ws s) <> Exhausted.
Proof.
  apply scan_enough; pose proof (skip_ws_length s); lia.
Qed.

Lemma loads_raises_decode_error (wording : fault -> str) (s : str)
  (e : raised) :
  loads wording s = Err e -> is_JSONDecodeError e = true.
Proof.
  unfold loads, Builtins.fail; intros H.
  repeat (split_match; try discriminate); now inv H.
Qed.

(** Some documents. *)
Example loads_chunk :
  loads plain_wording (u (dq "{'choices':[{'delta':{'content':'Hi'}}]}"))
  = Ok (VDict [(u "choices",
                VList [VDict [(u "delta",
                               VDict [(u "content", VStr (u "Hi"))])]])]).
Proof. vm_compute; reflexivity. Qed.

Example loads_values :
  loads plain_wording
    (u (dq " {'a': [1, -2.50e+3, true, null, 'x\u00e9\n'], 'a': 0, 'b': {}} "))
  = Ok (VDict [(u "a", VInt 0); (u "b", VDict [])])
  /\ loads plain_wording (u (dq "[1, -2.50e+3, true, null, 'x\u00e9\n']"))
     = Ok (VList [VInt 1; VFloat (FDec true 250 1); VBool true; VNone;
                  VStr [120; 233; 10]%N]).
Proof. split; vm_compute; reflexivity. Qed.

Example loads_refuses :
  forall doc, In doc ["[DONE]"; "[1,]"; "01"; "1e"; "{'a' 1}"; "'abc"; ""]%string ->
              exists e, loads plain_wording (u (dq doc)) = Err e.
Proof.
  intros doc H; simpl in H.
  repeat (destruct H as [<-|H]; [eexists; vm_compute; reflexivity|]).
  contradiction.
Qed.

End Decoder.

(** ** Other library functions *)

Example b64encode_examples :
  b64encode (b "Man") = u "TWFu"
  /\ b64encode (b "Ma") = u "TWE="
  /\ b64encode (b "M") = u "TQ=="
  /\ b64encode [] = [].
Proof. repeat split; vm_compute; reflexivity. Qed.

Example splitext_examples :
  splitext (u "/tmp/a.b/cat.tar.PNG") = (u "/tmp/a.b/cat.tar", u ".PNG")
  /\ splitext (u "/tmp/a.b/cat") = (u "/tmp/a.b/cat", [])
  /\ splitext (u "/tmp/.png") = (u "/tmp/.png", [])
  /\ splitext (u "cat.") = (u "cat", u ".").
Proof. repeat split; vm_compute; reflexivity. Qed.

Example extension_examples :
  extension (u "/tmp/cat.PNG") = u "PNG"
  /\ is_image_kind (u "PNG") = true
  /\ is_image_kind (u "JpEg") = true
  /\ is_image_kind (u "bmp") = false
  /\ is_image_kind [] = false.
Proof. repeat split; vm_compute; reflexivity. Qed.

Example utf8_examples :
  utf8 [226; 130; 172; 240; 159; 152; 128; 195; 169]%N
  = Some [8364; 128512; 233]%N
  /\ utf8 [237; 160; 128]%N = None
  /\ utf8 [192; 128]%N = None
  /\ utf8 [255]%N = None.
Proof. repeat split; vm_compute; reflexivity. Qed.

(** ** One line of the response *)

Section Loop.

Variable wording : fault -> str.
Variable json_loads : str -> result value.

Abbreviation on_chunk := (Novita.on_chunk wording postprocess).
Abbreviation on_line := (Novita.on_line wording json_loads postprocess).
Abbreviation for_lines := (Novita.for_lines wording json_loads postprocess).

(** A line that is text decodes to that text. *)
Lemma decode_text (line : bytes) (text : str) :
  text_of line = Some text -> decode wording line = Ok text.
Proof. unfold text_of, decode; now intros ->. Qed.

(** The empty line and the sentinel pass without effect. *)
Lemma on_line_empty (pm : str) : on_line pm [] = Ok (pm, []).
Proof. reflexivity. Qed.

Lemma on_line_sentinel (pm : str) : on_line pm DONE = Ok (pm, []).
Proof. reflexivity. Qed.

(** A data frame hands its chunk to [on_chunk]. *)
Lemma on_line_chunk (pm : str) (line : bytes) (chunk : value) :
  chunk_of json_loads line = Some chunk ->
  on_line pm line = skipping_decode_errors pm (on_chunk pm chunk).
Proof.
  unfold chunk_of; intros H.
  destruct (text_of line) as [text|] eqn:Ht; [|discriminate].
  destruct line as [|c line]; [inv Ht; discriminate|].
  unfold Novita.on_line; rewrite (decode_text _ _ Ht); simpl bind.
  destruct (startswith text (u "data:") && _); [|discriminate].
  destruct (json_loads _); now inv H.
Qed.

(** A chunk of the expected shape appends its delta and yields the new
    accumulator. *)
Lemma on_chunk_content (pm : str) (chunk : value) (d : str) :
  content_of chunk = Some d ->
  on_chunk pm chunk = Ok (pm ++ d, [pm ++ d]).
Proof.
  unfold content_of, Novita.on_chunk, getitem; intros H.
  repeat (split_match; try discriminate); subst; simpl;
    unfold index; simpl; rewrite ?Heqo0; simpl; rewrite ?Heqo1; simpl;
    inv H; rewrite ?app_nil_r; reflexivity.
Qed.

Lemma on_line_valid (pm : str) (line : bytes) (d : str) :
  delta_of json_loads line = Some d ->
  on_line pm line = Ok (pm ++ d, [pm ++ d]).
Proof.
  unfold delta_of; intros H.
  destruct (chunk_of json_loads line) as [chunk|] eqn:Hc; [|discriminate].
  now rewrite (on_line_chunk _ _ _ Hc), (on_chunk_content _ _ _ H).
Qed.

(** A malformed frame passes without effect. *)
Lemma on_line_malformed (pm : str) (line : bytes) :
  malformed json_loads line = true -> on_line pm line = Ok (pm, []).
Proof.
  unfold malformed; intros H.
  destruct (text_of line) as [text|] eqn:Ht; [|discriminate].
  apply andb_prop in H as [Hs Hj].
  destruct line as [|c line]; [inv Ht; discriminate|].
  unfold Novita.on_line; rewrite (decode_text _ _ Ht); simpl bind.
  rewrite Hs; simpl andb.
  destruct (negb _); [|reflexivity].
  destruct (json_loads _) as [?|e]; [discriminate|].
  simpl; now rewrite Hj.
Qed.

(** A line that is not text raises on line 57, before the inner [try]. *)
Lemma on_line_undecodable (pm : str) (line : bytes) :
  text_of line = None ->
  on_line pm line
  = Err {| cls := UnicodeDecodeError; descr := wording (CannotDecode line) |}.
Proof.
  intros Ht; destruct line as [|c line]; [discriminate|].
  unfold Novita.on_line, decode; unfold text_of in Ht; now rewrite Ht.
Qed.

(** What the decoder raises passes the inner handler unless it is a
    [JSONDecodeError]. *)
Lemma on_line_decoder_raises (pm : str) (line : bytes) (text : str)
  (e : raised) :
  text_of line = Some text ->
  startswith text (u "data:") = true ->
  str_eqb text (u "data: [DONE]") = false ->
  json_loads (strip (skipn 5 text)) = Err e ->
  is_JSONDecodeError e = false ->
  on_line pm line = Err e.
Proof.
  intros Ht Hs Hd Hj He.
  destruct line as [|c line]; [inv Ht; discriminate|].
  unfold Novita.on_line; rewrite (decode_text _ _ Ht); cbn [bind].
  rewrite Hs, Hd, Hj; simpl; now rewrite He.
Qed.

(** A chunk without choices, or whose first choice has no delta, raises
    the [KeyError] of that key. *)
Lemma on_chunk_missing (pm : str) (chunk : value) (k : str) :
  missing_key chunk = Some k ->
  on_chunk pm chunk = Err (key_error (KStr k)).
Proof.
  unfold missing_key, Novita.on_chunk, getitem; intros H.
  repeat (split_match; try discriminate); subst; simpl;
    unfold index; simpl; rewrite ?Heqo0; simpl; now inv H.
Qed.

(** What handling a chunk raises is an [Exception], and never a
    [JSONDecodeError]. *)
Lemma getitem_escapes (v : value) (k : key) (e : raised) :
  getitem wording v k = Err e -> escapes e.
Proof.
  unfold getitem; intros H.
  repeat (split_match; try discriminate); now inv H.
Qed.

Lemma on_chunk_escapes (pm : str) (chunk : value) (e : raised) :
  on_chunk pm chunk = Err e -> escapes e.
Proof.
  unfold Novita.on_chunk; intros H.
  destruct (getitem wording chunk _) as [choices|e1] eqn:E1; simpl in H;
    [|inv H; now apply getitem_escapes in E1].
  destruct (truthy choices); [|discriminate].
  destruct (getitem wording choices _) as [first|e2] eqn:E2; simpl in H;
    [|inv H; now apply getitem_escapes in E2].
  destruct (getitem wording first _) as [dl|e3] eqn:E3; simpl in H;
    [|inv H; now apply getitem_escapes in E3].
  destruct (get wording dl _ _) as [delta|e4] eqn:E4; simpl in H.
  - destruct delta; try discriminate; now inv H.
  - inv H; unfold get in E4; destruct dl; try (now inv E4).
    now destruct (dict_lookup _ _).
Qed.

Lemma on_line_raises (pm : str) (line : bytes) (chunk : value) (e : raised) :
  chunk_of json_loads line = Some chunk ->
  on_chunk pm chunk = Err e ->
  on_line pm line = Err e /\ is_Exception e = true.
Proof.
  intros Hc He; rewrite (on_line_chunk _ _ _ Hc), He.
  destruct (on_chunk_escapes _ _ _ He) as [Hj Hx].
  simpl; now rewrite Hj.
Qed.

Lemma on_line_missing (pm : str) (line : bytes) (chunk : value) (k : str) :
  chunk_of json_loads line = Some chunk ->
  missing_key chunk = Some k ->
  on_line pm line = Err (key_error (KStr k)).
Proof.
  intros Hc Hk.
  now rewrite (on_line_chunk _ _ _ Hc), (on_chunk_missing _ _ _ Hk).
Qed.

(** A chunk with an empty list of choices passes without effect. *)
Lemma on_line_no_choices (pm : str) (line : bytes) (chunk : value) :
  chunk_of json_loads line = Some chunk ->
  no_choices chunk = true ->
  on_line pm line = Ok (pm, []).
Proof.
  intros Hc Hn; rewrite (on_line_chunk _ _ _ Hc).
  unfold no_choices in Hn; unfold Novita.on_chunk, getitem.
  repeat (split_match; try discriminate); subst; reflexivity.
Qed.

Lemma lacks_content_delta (chunk : value) :
  lacks_content chunk = true -> content_of chunk = Some [].
Proof.
  unfold lacks_content, content_of; intros H.
  repeat (split_match; try discriminate); reflexivity.
Qed.

(** Whatever the line, the accumulator is only ever extended, and what is
    yielded, if anything, is the new accumulator. *)
Lemma on_chunk_shape (pm : str) (chunk : value) (pm' : str) (out : list str) :
  on_chunk pm chunk = Ok (pm', out) ->
  prefix_of pm pm' /\ (out = [] /\ pm' = pm \/ out = [pm']).
Proof.
  unfold Novita.on_chunk; intros H.
  destruct (getitem wording chunk _) as [choices|]; [simpl in H|discriminate].
  destruct (truthy choices).
  - destruct (getitem wording choices _) as [first|]; [simpl in H|discriminate].
    destruct (getitem wording first _) as [dl|]; [simpl in H|discriminate].
    destruct (get wording dl _ _) as [delta|]; [simpl in H|discriminate].
    destruct delta; try discriminate; simpl in H; inv H.
    split; [apply prefix_of_app | now right].
  - inv H; split; [apply prefix_of_refl | now left].
Qed.

Lemma on_line_shape (pm : str) (line : bytes) (pm' : str) (out : list str) :
  on_line pm line = Ok (pm', out) ->
  prefix_of pm pm' /\ (out = [] /\ pm' = pm \/ out = [pm']).
Proof.
  assert (Hsame : forall p o, Ok (pm, []) = Ok (p, o) ->
            prefix_of pm p /\ (o = [] /\ p = pm \/ o = [p])).
  { intros p o E; inv E; split; [apply prefix_of_refl | now left]. }
  unfold Novita.on_line; intros H.
  destruct line as [|c line]; [now apply Hsame|].
  destruct (decode wording (c :: line)) as [text|]; [simpl in H|discriminate].
  destruct (startswith text _ && _); [|now apply Hsame].
  destruct (json_loads _) as [chunk|e]; simpl in H.
  - destruct (on_chunk pm chunk) as [[p o]|e] eqn:Hc; simpl in H.
    + inv H; now apply on_chunk_shape with chunk.
    + destruct (is_JSONDecodeError e); [now apply Hsame|discriminate].
  - destruct (is_JSONDecodeError e); [now apply Hsame|discriminate].
Qed.

(** ** The loop *)

(** A line without effect can be dropped from the response. *)
Lemma for_lines_skip (line : bytes) (pre rest : list bytes)
  (broken : option raised) :
  (forall pm, on_line pm line = Ok (pm, [])) ->
  forall pm, for_lines pm (pre ++ line :: rest) broken
             = for_lines pm (pre ++ rest) broken.
Proof.
  intros Hskip; induction pre as [|l pre IH]; intros pm; simpl.
  - rewrite Hskip; simpl; now destruct (for_lines pm rest broken).
  - destruct (on_line pm l) as [[pm' out]|e]; [now rewrite IH|reflexivity].
Qed.

(** What the loop yields is a chain of extensions of the accumulator. *)
Lemma for_lines_chain (lines : list bytes) (broken : option raised) :
  forall pm, extends_from pm (yields (for_lines pm lines broken)).
Proof.
  induction lines as [|l lines IH]; intros pm; simpl; [exact I|].
  destruct (on_line pm l) as [[pm' out]|e] eqn:Hl; simpl; [|exact I].
  apply on_line_shape in Hl as [Hp [ [-> ->] | -> ] ]; simpl.
  - apply IH.
  - split; [exact Hp | apply IH].
Qed.

(** When the loop gets through [pre] without an exception, it goes on with
    the rest of the lines from the last value it yielded. *)
Lemma for_lines_app (pre rest : list bytes) (broken : option raised) :
  forall pm ys,
    for_lines pm pre None = {| yields := ys; ending := None |} ->
    for_lines pm (pre ++ rest) broken
    = {| yields := ys ++ yields (for_lines (last ys pm) rest broken);
         ending := ending (for_lines (last ys pm) rest broken) |}.
Proof.
  induction pre as [|l pre IH]; intros pm ys; simpl.
  - intros H; inv H; simpl; now destruct (for_lines pm rest broken).
  - destruct (on_line pm l) as [[pm' out]|e] eqn:Hl; [|discriminate].
    destruct (for_lines pm' pre None) as [ys' en] eqn:Hpre; simpl.
    intros H; inv H.
    rewrite (IH pm' ys' Hpre); simpl.
    apply on_line_shape in Hl as [_ [ [-> ->] | -> ] ].
    + reflexivity.
    + change ([pm'] ++ ys') with (pm' :: ys').
      now rewrite last_cons_default.
Qed.

(** Valid frames yield the cumulative snapshots of their deltas. *)
Lemma for_lines_valid (lines : list bytes) (deltas : list str)
  (broken : option raised) :
  Forall2 (fun l d => delta_of json_loads l = Some d) lines deltas ->
  forall pm, for_lines pm lines broken
             = {| yields := snapshots pm deltas; ending := broken |}.
Proof.
  induction 1 as [|l d lines deltas Hd _ IH]; intros pm; simpl; [reflexivity|].
  now rewrite (on_line_valid _ _ _ Hd), IH.
Qed.

End Loop.

(** ** A call of [fn] *)

Section Call.

Variable wording : fault -> str.
Variable repr : value -> str.
Variable json_loads : str -> result value.
Variable post : request -> response.
Variables model_name api_key : str.
Variable system_prompt : option str.
Variable message : value.
Variable history : chat_history.

(** [fn] posts the request [sent] and handles the response. *)
Lemma fn_posts :
  fn wording json_loads post model_name (preprocess repr) postprocess
     api_key system_prompt message history
  = except_Exception
      match post (sent repr model_name api_key system_prompt message history)
      with
      | Refused e => {| yields := []; ending := Some e |}
      | Answered (Some e) _ _ => {| yields := []; ending := Some e |}
      | Answered None lines broken =>
          for_lines wording json_loads postprocess [] lines broken
      end.
Proof. reflexivity. Qed.

Lemma fn_answered (lines : list bytes) (broken : option raised) :
  post (sent repr model_name api_key system_prompt message history)
  = Answered None lines broken ->
  fn wording json_loads post model_name (preprocess repr) postprocess
     api_key system_prompt message history
  = except_Exception (for_lines wording json_loads postprocess [] lines broken).
Proof. intros H; now rewrite fn_posts, H. Qed.

End Call.

(** ** The message list *)

Lemma fold_turn_complete (repr : value -> str) (history : chat_history) :
  Forall (fun entry => snd entry <> VNone) history ->
  forall messages,
    fold_left (turn repr) history messages
    = messages ++ flat_map (pair_messages repr) history.
Proof.
  induction 1 as [|[user_msg assistant_msg] history Ha _ IH];
    intros messages; simpl.
  - now rewrite app_nil_r.
  - rewrite IH; unfold pair_messages; simpl in *.
    destruct assistant_msg; [now contradiction Ha | ..];
      now rewrite <- !app_assoc.
Qed.

Lemma length_pair_messages (repr : value -> str) (history : chat_history) :
  length (flat_map (pair_messages repr) history) = length history * 2.
Proof.
  induction history as [|entry history IH]; simpl; [reflexivity|].
  now rewrite IH.
Qed.

Lemma length_system_messages (system_prompt : option str) :
  length (system_messages system_prompt)
  = if given system_prompt then 1 else 0.
Proof. now destruct system_prompt as [[|c s]|]. Qed.

(** ** Sequences *)

Lemma index_last {A} (l : list A) (x : A) : index (l ++ [x]) (-1) = Some x.
Proof.
  unfold index; change (-1 <? 0)%Z with true; cbv iota.
  replace (Z.of_nat (length (l ++ [x])) + -1)%Z with (Z.of_nat (length l))
    by (rewrite length_app; simpl; lia).
  destruct (Z.ltb_spec (Z.of_nat (length l)) 0) as [Hneg|_]; [lia|].
  rewrite Nat2Z.id, nth_error_app2, Nat.sub_diag by lia; reflexivity.
Qed.

Lemma nonempty_snoc {A} (l : list A) (x : A) : (0 <? length (l ++ [x])) = true.
Proof. apply Nat.ltb_lt; rewrite length_app; simpl; lia. Qed.

Lemma getitem_dict (wording : fault -> str) (d : dict) (k : str) (v : value) :
  dict_lookup k d = Some v -> getitem wording (VDict d) (KStr k) = Ok v.
Proof. intros H; simpl; now rewrite H. Qed.

Lemma getitem_last (wording : fault -> str) (l : list value) (x : value) :
  getitem wording (VList (l ++ [x])) (KInt (-1)) = Ok x.
Proof. unfold getitem; now rewrite index_last. Qed.

(** ** Keyword arguments and the construction of the widget *)

Lemma str_eqb_sym (x y : str) : str_eqb x y = str_eqb y x.
Proof.
  revert y; induction x as [|a x IH]; intros [|c y]; simpl; try reflexivity.
  now rewrite IH, N.eqb_sym.
Qed.

(** A call with one named argument: the name must not be among the keys of
    the dict that is unpacked. *)
Lemma keywords_one (wording : fault -> str) (callee name : str)
  (kwargs : dict) :
  keywords wording callee [name] kwargs
  = match dict_lookup name kwargs with
    | None => Ok tt
    | Some _ => Err {| cls := TypeError;
                       descr := wording (RepeatedKeyword callee name) |}
    end.
Proof.
  unfold keywords.
  induction kwargs as [|[k v] kwargs IH]; [reflexivity|].
  cbn [map fst find dict_lookup mem_str existsb].
  rewrite orb_false_r, (str_eqb_sym name k).
  destruct (str_eqb k name) eqn:E; [|exact IH].
  now apply str_eqb_eq in E; subst k.
Qed.

Section Widget.

Variable wording : fault -> str.
Variable ChatInterface_init :
  (value -> chat_history -> generator) -> dict -> option raised.

Lemma new_ChatInterface_cases (fn : value -> chat_history -> generator)
  (kwargs : dict) :
  new_ChatInterface wording ChatInterface_init fn kwargs
  = match dict_lookup (u "fn") kwargs with
    | Some _ =>
        Err {| cls := TypeError;
               descr := wording (RepeatedKeyword (u "ChatInterface") (u "fn")) |}
    | None =>
        match ChatInterface_init fn kwargs with
        | Some e => Err e
        | None => Ok (ChatInterface fn kwargs)
        end
    end.
Proof.
  unfold new_ChatInterface; rewrite keywords_one.
  now destruct (dict_lookup (u "fn") kwargs).
Qed.

Lemma new_ChatInterface_returns (fn : value -> chat_history -> generator)
  (kwargs : dict) (widget : interface) :
  new_ChatInterface wording ChatInterface_init fn kwargs = Ok widget ->
  widget = ChatInterface fn kwargs.
Proof.
  rewrite new_ChatInterface_cases.
  destruct (dict_lookup (u "fn") kwargs); [discriminate|].
  destruct (ChatInterface_init fn kwargs); [discriminate|].
  now intros H; inv H.
Qed.

Lemma new_ChatInterface_accepts (fn : value -> chat_history -> generator)
  (kwargs : dict) :
  dict_lookup (u "fn") kwargs = None ->
  ChatInterface_init fn kwargs = None ->
  new_ChatInterface wording ChatInterface_init fn kwargs
  = Ok (ChatInterface fn kwargs).
Proof.
  intros Hk Hi; now rewrite new_ChatInterface_cases, Hk, Hi.
Qed.

End Widget.

End Facts.

(* ===================================================================== *)
(** * The claims *)
(* ===================================================================== *)

Module Claims.

Import Builtins Novita Stream Facts.

(** ** The streaming function *)

Section Streaming.

(** One call of [fn], as [registry] sets it up: any interpreter, decoder and
    network, any model, key and prompt, any message and history. *)
Variable wording : fault -> str.
Variable repr : value -> str.
Variable json_loads : str -> result value.
Variable post : request -> response.
Variables model_name api_key : str.
Variable system_prompt : option str.
Variable message : value.
Variable history : chat_history.

Abbreviation call :=
  (fn wording json_loads post model_name (preprocess repr) postprocess
      api_key system_prompt message history).

Abbreviation request :=
  (sent repr model_name api_key system_prompt message history).

(** C1, as the code has it.  The sentinel line [data: [DONE]] is skipped: it
    yields nothing and leaves the accumulator as it is, so a response yields
    exactly what it yields without the sentinel.  The stream ends when the
    lines of the response end; frames after a sentinel are handled like any
    others. *)
Theorem sentinel_is_skipped (pre rest : list bytes) (broken : option raised) :
  post request = Answered None (pre ++ DONE :: rest) broken ->
  call
  = fn wording json_loads (answering (pre ++ rest) broken) model_name
       (preprocess repr) postprocess api_key system_prompt message history.
Proof.
  intros H.
  rewrite (fn_answered _ _ _ _ _ _ _ _ _ _ _ H).
  rewrite (fn_answered wording repr json_loads
             (answering (pre ++ rest) broken) model_name api_key
             system_prompt message history _ _ eq_refl).
  f_equal; apply for_lines_skip; intros pm; apply on_line_sentinel.
Qed.

(** C2.  The frames carrying Hi and then there, followed by the sentinel,
    yield Hi and then Hi there, and the generator returns.  In general the
    frames of a response yield the cumulative snapshots of their deltas:
    every value is the whole message so far. *)
Theorem streams_cumulative_snapshots :
  (post request
   = Answered None
       [b (dq "data: {'choices':[{'delta':{'content':'Hi'}}]}");
        b (dq "data: {'choices':[{'delta':{'content':' there'}}]}");
        b "data: [DONE]"]
       None ->
   fn wording (Json.loads wording) post model_name (preprocess repr)
      postprocess api_key system_prompt message history
   = {| yields := [u "Hi"; u "Hi there"]; ending := None |})
  /\ (forall lines deltas,
         Forall2 (fun l d => delta_of json_loads l = Some d) lines deltas ->
         post request = Answered None lines None ->
         call = {| yields := snapshots [] deltas; ending := None |}).
Proof.
  split.
  - intros H; rewrite (fn_answered _ _ _ _ _ _ _ _ _ _ _ H).
    vm_compute; reflexivity.
  - intros lines deltas Hv H; rewrite (fn_answered _ _ _ _ _ _ _ _ _ _ _ H).
    now rewrite (for_lines_valid wording _ _ _ None Hv).
Qed.

(** C3, for the frames that the inner handler covers.  A valid frame, a
    malformed frame and another valid frame yield exactly two values, the
    first delta and the two deltas together: the malformed frame is skipped
    and the generator returns normally.  Malformed is here a line of UTF-8
    text with the data prefix whose payload the decoder refuses with
    [JSONDecodeError], the one exception that line 66 catches.  A frame
    that cannot be parsed for another reason is not skipped: when it is not
    UTF-8 text, or when the decoder raises another exception on its
    payload, the call yields the first delta and then the error value of
    that exception, and the second valid frame is not read. *)
Theorem malformed_frame_is_skipped (first garbage second : bytes)
  (d1 d2 : str) :
  delta_of json_loads first = Some d1 ->
  delta_of json_loads second = Some d2 ->
  post request = Answered None [first; garbage; second] None ->
  (malformed json_loads garbage = true ->
   call = {| yields := [d1; d1 ++ d2]; ending := None |})
  /\ (text_of garbage = None ->
      call = {| yields := [d1; u "Error: " ++ wording (CannotDecode garbage)];
                ending := None |})
  /\ (forall text e,
         text_of garbage = Some text ->
         startswith text (u "data:") = true ->
         str_eqb text (u "data: [DONE]") = false ->
         json_loads (strip (skipn 5 text)) = Err e ->
         escapes e ->
         call = {| yields := [d1; u "Error: " ++ descr e]; ending := None |}).
Proof.
  intros H1 H2 H; rewrite (fn_answered _ _ _ _ _ _ _ _ _ _ _ H).
  simpl Novita.for_lines.
  rewrite (on_line_valid wording _ _ _ _ H1); simpl.
  split; [|split].
  - intros Hg.
    rewrite (on_line_malformed wording _ _ _ Hg); simpl.
    rewrite (on_line_valid wording _ _ _ _ H2); reflexivity.
  - intros Ht.
    rewrite (on_line_undecodable wording _ _ _ Ht); reflexivity.
  - intros text e Ht Hs Hd Hj [He Hx].
    rewrite (on_line_decoder_raises wording _ _ _ _ _ Ht Hs Hd Hj He).
    unfold except_Exception; simpl; now rewrite Hx.
Qed.

(** C4.  A failure of the transport that is an [Exception] is caught and
    reported as one last value, Error: and its description, after which the
    generator returns.  When [requests.post] or [raise_for_status] raises,
    that value is the only one; when the connection fails after lines that
    were handled without an exception, it follows their snapshots. *)
Theorem transport_failure_is_reported (e : raised) :
  is_Exception e = true ->
  ((post request = Refused e
    \/ exists lines broken, post request = Answered (Some e) lines broken) ->
   call = {| yields := [u "Error: " ++ descr e]; ending := None |})
  /\ (forall lines ys,
         post request = Answered None lines (Some e) ->
         for_lines wording json_loads postprocess [] lines None
         = {| yields := ys; ending := None |} ->
         call = {| yields := ys ++ [u "Error: " ++ descr e];
                   ending := None |}).
Proof.
  intros He; split.
  - intros [H | (lines & broken & H)]; rewrite fn_posts, H;
      unfold except_Exception; simpl; now rewrite He.
  - intros lines ys H Hys; rewrite (fn_answered _ _ _ _ _ _ _ _ _ _ _ H).
    pose proof (for_lines_app wording json_loads lines [] (Some e) _ _ Hys)
      as A.
    rewrite app_nil_r in A; rewrite A.
    unfold except_Exception; simpl; rewrite He, app_nil_r; reflexivity.
Qed.

(** C5, as the code has it.  The accumulator is only ever extended: the
    values yielded inside the [try] block, which are the snapshots, each have
    the value yielded before them as a prefix.  A call yields these values
    and, when an [Exception] ended the block, one more value that reports it
    and need not extend the last snapshot. *)
Theorem snapshots_extend_monotonically :
  let block :=
    try_body wording json_loads post model_name postprocess
      (preprocess repr message history system_prompt)
      (request_headers api_key) in
  extends_from [] (yields block)
  /\ (yields call = yields block
      \/ exists e, ending block = Some e /\ is_Exception e = true
                   /\ yields call = yields block ++ [u "Error: " ++ descr e]).
Proof.
  intros block; unfold fn; fold block; split.
  - subst block; unfold try_body; simpl.
    destruct (post _) as [e | [e|] lines broken]; simpl; try exact I.
    apply for_lines_chain.
  - unfold except_Exception.
    destruct (ending block) as [e|] eqn:Eb; [|now left].
    destruct (is_Exception e) eqn:Ee; [right | now left].
    exists e; repeat split; auto.
Qed.

(** C9.  A frame that is valid JSON is not skipped when handling its chunk
    fails.  When the chunk is a dict without choices, or its first choice is
    a dict without delta, the lookup raises a [KeyError] that the inner
    handler lets through: after the snapshots of the lines before it, the
    call yields one value, Error: and the quoted key, and returns, whatever
    lines follow.  The same holds for every exception that handling a
    decoded chunk raises. *)
Theorem missing_key_ends_stream (pre rest : list bytes) (frame : bytes)
  (broken : option raised) (chunk : value) (ys : list str) :
  chunk_of json_loads frame = Some chunk ->
  for_lines wording json_loads postprocess [] pre None
  = {| yields := ys; ending := None |} ->
  post request = Answered None (pre ++ frame :: rest) broken ->
  (forall k,
      missing_key chunk = Some k ->
      call = {| yields := ys ++ [u "Error: " ++ u "'" ++ k ++ u "'"];
                ending := None |})
  /\ (forall e,
         on_chunk wording postprocess (last ys []) chunk = Err e ->
         call = {| yields := ys ++ [u "Error: " ++ descr e];
                   ending := None |}).
Proof.
  intros Hc Hpre H; rewrite (fn_answered _ _ _ _ _ _ _ _ _ _ _ H).
  rewrite (for_lines_app wording json_loads pre (frame :: rest) broken
             _ _ Hpre).
  simpl Novita.for_lines; split.
  - intros k Hk; rewrite (on_line_missing wording _ _ _ _ _ Hc Hk).
    unfold except_Exception; simpl; now rewrite app_nil_r.
  - intros e He.
    destruct (on_line_raises wording _ _ _ _ _ Hc He) as [-> Hx].
    unfold except_Exception; simpl; now rewrite Hx, app_nil_r.
Qed.

(** C10.  A data frame whose first choice has a delta without content
    appends the empty text and still yields: after lines handled without an
    exception, the value yielded for it repeats the last one yielded (the
    empty text if there was none).  A frame whose choices are the empty list
    yields nothing. *)
Theorem delta_without_content_repeats_snapshot (pre : list bytes)
  (frame : bytes) (chunk : value) (ys : list str) :
  chunk_of json_loads frame = Some chunk ->
  for_lines wording json_loads postprocess [] pre None
  = {| yields := ys; ending := None |} ->
  post request = Answered None (pre ++ [frame]) None ->
  (lacks_content chunk = true ->
   call = {| yields := ys ++ [last ys []]; ending := None |})
  /\ (no_choices chunk = true ->
      call = {| yields := ys; ending := None |}).
Proof.
  intros Hc Hpre H; rewrite (fn_answered _ _ _ _ _ _ _ _ _ _ _ H).
  rewrite (for_lines_app wording json_loads pre [frame] None _ _ Hpre).
  simpl Novita.for_lines; split; intros Hk.
  - assert (Hd : delta_of json_loads frame = Some []).
    { unfold delta_of; rewrite Hc; now apply lacks_content_delta. }
    rewrite (on_line_valid wording _ _ _ _ Hd); simpl.
    now rewrite !app_nil_r.
  - rewrite (on_line_no_choices wording _ _ _ _ Hc Hk); simpl.
    now rewrite app_nil_r.
Qed.

End Streaming.

(** *** Concrete calls *)

Lemma sentinel_is_skipped_witness :
  example_call
    ([b (dq "data: {'choices':[{'delta':{'content':'Hi'}}]}")]
     ++ DONE :: [b (dq "data: {'choices':[{'delta':{'content':'!'}}]}")])
    None
  = example_call
      ([b (dq "data: {'choices':[{'delta':{'content':'Hi'}}]}")]
       ++ [b (dq "data: {'choices':[{'delta':{'content':'!'}}]}")])
      None.
Proof.
  exact (sentinel_is_skipped plain_wording plain_repr
           (Json.loads plain_wording) _ (u "model") (u "key") None
           (VStr (u "hello")) [] _ _ None eq_refl).
Defined.

(** C1 as stated fails: a frame that follows the sentinel is still decoded
    and its snapshot is yielded. *)
Lemma output_after_sentinel :
  example_call
    [b "data: [DONE]";
     b (dq "data: {'choices':[{'delta':{'content':'Hi'}}]}")]
    None
  = {| yields := [u "Hi"]; ending := None |}.
Proof. vm_compute; reflexivity. Qed.

Lemma streams_cumulative_snapshots_witness :
  example_call
    [b (dq "data: {'choices':[{'delta':{'content':'Hi'}}]}");
     b (dq "data: {'choices':[{'delta':{'content':' there'}}]}");
     b "data: [DONE]"]
    None
  = {| yields := [u "Hi"; u "Hi there"]; ending := None |}
  /\ example_call
       [b (dq "data: {'choices':[{'delta':{'content':'a'}}]}");
        b (dq "data:{'choices':[{'delta':{'role':'assistant'}}]}");
        b (dq "data: {'choices':[{'delta':{'content':'b'}}]}")]
       None
     = {| yields := snapshots [] [u "a"; []; u "b"]; ending := None |}.
Proof.
  pose proof (streams_cumulative_snapshots plain_wording plain_repr
                (Json.loads plain_wording)) as T.
  split.
  - apply (proj1 (T _ (u "model") (u "key") None (VStr (u "hello")) []));
      reflexivity.
  - eapply (proj2 (T _ (u "model") (u "key") None (VStr (u "hello")) []));
      [|reflexivity].
    repeat (constructor; [vm_compute; reflexivity|]); constructor.
Defined.

Lemma malformed_frame_is_skipped_witness :
  example_call
    [b (dq "data: {'choices':[{'delta':{'content':'Hi'}}]}");
     b (dq "data: {'choices':[{'delta'");
     b (dq "data: {'choices':[{'delta':{'content':' there'}}]}")]
    None
  = {| yields := [u "Hi"; u "Hi" ++ u " there"]; ending := None |}
  /\ example_call
       [b (dq "data: {'choices':[{'delta':{'content':'Hi'}}]}");
        b "data: " ++ [xff; xfe];
        b (dq "data: {'choices':[{'delta':{'content':' there'}}]}")]
       None
     = {| yields := [u "Hi";
                     u "Error: "
                     ++ plain_wording (CannotDecode (b "data: " ++ [xff; xfe]))];
          ending := None |}
  /\ fn plain_wording shallow_loads
        (answering
           [b (dq "data: {'choices':[{'delta':{'content':'Hi'}}]}");
            b "data: [[[[]]]]";
            b (dq "data: {'choices':[{'delta':{'content':' there'}}]}")]
           None)
        (u "model") (preprocess plain_repr) postprocess (u "key") None
        (VStr (u "hello")) []
     = {| yields := [u "Hi";
                     u "Error: " ++ u "maximum recursion depth exceeded"];
          ending := None |}.
Proof.
  split; [|split].
  - refine (proj1 (malformed_frame_is_skipped plain_wording plain_repr
                     (Json.loads plain_wording) _ (u "model") (u "key") None
                     (VStr (u "hello")) [] _ _ _ (u "Hi") (u " there")
                     _ _ eq_refl) _);
      vm_compute; reflexivity.
  - refine (proj1 (proj2 (malformed_frame_is_skipped plain_wording plain_repr
                     (Json.loads plain_wording) _ (u "model") (u "key") None
                     (VStr (u "hello")) [] _ _ _ (u "Hi") (u " there")
                     _ _ eq_refl)) _);
      vm_compute; reflexivity.
  - refine (proj2 (proj2 (malformed_frame_is_skipped plain_wording plain_repr
                     shallow_loads _ (u "model") (u "key") None
                     (VStr (u "hello")) [] _ _ _ (u "Hi") (u " there")
                     _ _ eq_refl))
              (u "data: [[[[]]]]")
              {| cls := OtherException;
                 descr := u "maximum recursion depth exceeded" |}
              _ _ _ _ _);
      try (vm_compute; reflexivity).
    split; reflexivity.
Defined.

Lemma transport_failure_is_reported_witness :
  fn plain_wording (Json.loads plain_wording)
     (refusing {| cls := OtherException; descr := u "Connection refused" |})
     (u "model") (preprocess plain_repr) postprocess (u "key") None
     (VStr (u "hello")) []
  = {| yields := [u "Error: " ++ u "Connection refused"]; ending := None |}
  /\ example_call
       [b (dq "data: {'choices':[{'delta':{'content':'Hi'}}]}")]
       (Some {| cls := OtherException; descr := u "Connection reset" |})
     = {| yields := [u "Hi"] ++ [u "Error: " ++ u "Connection reset"];
          ending := None |}.
Proof.
  split.
  - apply (proj1 (transport_failure_is_reported
                    plain_wording plain_repr (Json.loads plain_wording)
                    (refusing {| cls := OtherException;
                                 descr := u "Connection refused" |})
                    (u "model") (u "key") None (VStr (u "hello")) []
                    {| cls := OtherException;
                       descr := u "Connection refused" |}
                    eq_refl)).
    left; reflexivity.
  - apply (proj2 (transport_failure_is_reported
                    plain_wording plain_repr (Json.loads plain_wording)
                    (answering
                       [b (dq "data: {'choices':[{'delta':{'content':'Hi'}}]}")]
                       (Some {| cls := OtherException;
                                descr := u "Connection reset" |}))
                    (u "model") (u "key") None (VStr (u "hello")) []
                    {| cls := OtherException;
                       descr := u "Connection reset" |}
                    eq_refl)
             [b (dq "data: {'choices':[{'delta':{'content':'Hi'}}]}")]
             [u "Hi"]); reflexivity.
Defined.

(** C3 as stated fails: a frame that is not UTF-8 text cannot be parsed,
    yet it is not skipped.  It is decoded on line 57, outside the inner
    handler, so between two valid frames it ends the call with an error
    value after the first snapshot, and the second valid frame is not
    read. *)
Lemma undecodable_frame_is_not_skipped :
  text_of (b "data: " ++ [xff; xfe]) = None
  /\ example_call
       [b (dq "data: {'choices':[{'delta':{'content':'Hi'}}]}");
        b "data: " ++ [xff; xfe];
        b (dq "data: {'choices':[{'delta':{'content':' there'}}]}")]
       None
     = {| yields := [u "Hi";
                     u "Error: "
                     ++ plain_wording (CannotDecode (b "data: " ++ [xff; xfe]))];
          ending := None |}.
Proof. split; vm_compute; reflexivity. Qed.

(** C5 as stated fails: after the snapshot Hi, a frame without choices ends
    the call with an error value, and Hi is not a prefix of that value. *)
Lemma error_value_does_not_extend :
  yields
    (example_call
       [b (dq "data: {'choices':[{'delta':{'content':'Hi'}}]}");
        b "data: {}"]
       None)
  = [u "Hi"; u "Error: 'choices'"]
  /\ ~ prefix_of (u "Hi") (u "Error: 'choices'").
Proof.
  split; [vm_compute; reflexivity|].
  intros [t Ht]; vm_compute in Ht; discriminate.
Qed.

Lemma missing_key_ends_stream_witness :
  example_call
    ([b (dq "data: {'choices':[{'delta':{'content':'Hi'}}]}")]
     ++ b (dq "data: {'choices':[{'index':0}]}")
     :: [b (dq "data: {'choices':[{'delta':{'content':' there'}}]}")])
    None
  = {| yields := [u "Hi"] ++ [u "Error: " ++ u "'" ++ u "delta" ++ u "'"];
       ending := None |}.
Proof.
  refine (proj1 (missing_key_ends_stream plain_wording plain_repr
                   (Json.loads plain_wording) _ (u "model") (u "key") None
                   (VStr (u "hello")) []
                   [b (dq "data: {'choices':[{'delta':{'content':'Hi'}}]}")]
                   _ (b (dq "data: {'choices':[{'index':0}]}")) None _ _
                   eq_refl eq_refl eq_refl)
            (u "delta") eq_refl).
Defined.

Lemma delta_without_content_repeats_snapshot_witness :
  example_call
    ([b (dq "data: {'choices':[{'delta':{'content':'Hi'}}]}")]
     ++ [b (dq "data: {'choices':[{'delta':{'role':'assistant'}}]}")])
    None
  = {| yields := [u "Hi"] ++ [last [u "Hi"] []]; ending := None |}.
Proof.
  refine (proj1 (delta_without_content_repeats_snapshot
                   plain_wording plain_repr (Json.loads plain_wording) _
                   (u "model") (u "key") None (VStr (u "hello")) []
                   [b (dq "data: {'choices':[{'delta':{'content':'Hi'}}]}")]
                   (b (dq "data: {'choices':[{'delta':{'role':'assistant'}}]}"))
                   _ _ eq_refl eq_refl eq_refl) eq_refl).
Defined.

(** ** The message builder *)

(** C6.  For a history in which every assistant side is present the message
    list is the system message (when a prompt is given, that is, when it is
    not [None] and not empty), then a user and an assistant message for each
    entry in order, then the new user message; its length is twice the
    number of entries plus one, plus one for a prompt that is given. *)
Theorem preprocess_orders_messages :
  forall repr message history system_prompt,
    Forall (fun entry => snd entry <> VNone) history ->
    preprocess repr message history system_prompt
    = VDict [(u "messages",
              VList (system_messages system_prompt
                     ++ flat_map (pair_messages repr) history
                     ++ [message_of "user" (VStr (py_str repr message))]))]
    /\ length (build_messages repr message history system_prompt)
       = length history * 2 + 1 + (if given system_prompt then 1 else 0).
Proof.
  intros * Hall.
  assert (E : build_messages repr message history system_prompt
              = system_messages system_prompt
                ++ flat_map (pair_messages repr) history
                ++ [message_of "user" (VStr (py_str repr message))]).
  { unfold build_messages.
    rewrite (fold_turn_complete repr _ Hall), <- app_assoc.
    now destruct system_prompt as [[|c s]|]. }
  split.
  - unfold preprocess; now rewrite E.
  - rewrite E, !length_app, length_pair_messages, length_system_messages.
    simpl; lia.
Qed.

Lemma preprocess_orders_messages_witness :
  length (build_messages plain_repr (VStr (u "and now?"))
            [(VStr (u "hello"), VStr (u "hi")); (VInt 2, VStr (u "two"))]
            (Some (u "be brief")))
  = 2 * 2 + 1 + 1.
Proof.
  refine (proj2 (@preprocess_orders_messages plain_repr (VStr (u "and now?"))
                   [(VStr (u "hello"), VStr (u "hi")); (VInt 2, VStr (u "two"))]
                   (Some (u "be brief")) _)).
  repeat constructor; simpl; discriminate.
Defined.

(** ** The factory *)

(** C7.  Without a token and without the environment variable, [registry]
    raises the [ValueError] of the missing key, whatever the network would
    answer and whatever Gradio would do with the options: no request is
    posted and no widget is built.  A token that is supplied (not empty) is
    the key of the function that is handed to [gr.ChatInterface], whatever
    the environment holds: [registry] ends as that construction ends, so
    when it returns, the widget is bound to the function with the token as
    key, and it does return when the options do not name [fn] and Gradio
    accepts them. *)
Theorem registry_resolves_credential :
  forall wording repr json_loads environ post ChatInterface_init
         Interface_init name coder kwargs,
    (environ (u "NOVITA_API_KEY") = None ->
     registry wording repr json_loads environ post ChatInterface_init
              Interface_init name None coder kwargs
     = Err {| cls := ValueError;
              descr := u "NOVITA_API_KEY environment variable is not set." |})
    /\ (forall token,
           given (Some token) = true ->
           let fn :=
             get_fn wording json_loads post name (preprocess repr)
                    postprocess token
                    (Some (if coder then coder_prompt else default_prompt)) in
           registry wording repr json_loads environ post ChatInterface_init
                    Interface_init name (Some token) coder kwargs
           = new_ChatInterface wording ChatInterface_init fn kwargs
           /\ (forall widget,
                  registry wording repr json_loads environ post
                           ChatInterface_init Interface_init name
                           (Some token) coder kwargs
                  = Ok widget ->
                  widget = ChatInterface fn kwargs)
           /\ (dict_lookup (u "fn") kwargs = None ->
               ChatInterface_init fn kwargs = None ->
               registry wording repr json_loads environ post
                        ChatInterface_init Interface_init name
                        (Some token) coder kwargs
               = Ok (ChatInterface fn kwargs))).
Proof.
  intros; split.
  - intros He; unfold registry, or_else; simpl; now rewrite He.
  - intros token Hg; cbv zeta.
    assert (E : registry wording repr json_loads environ post
                  ChatInterface_init Interface_init name (Some token)
                  coder kwargs
                = new_ChatInterface wording ChatInterface_init
                    (get_fn wording json_loads post name (preprocess repr)
                       postprocess token
                       (Some (if coder then coder_prompt
                              else default_prompt)))
                    kwargs).
    { destruct token as [|c k]; [discriminate|].
      unfold registry, or_else; simpl given; cbv iota; simpl negb; cbv iota.
      now destruct coder. }
    rewrite E; split; [reflexivity|split].
    + exact (new_ChatInterface_returns wording ChatInterface_init _ kwargs).
    + exact (new_ChatInterface_accepts wording ChatInterface_init _ kwargs).
Qed.

Lemma registry_resolves_credential_witness :
  registry plain_wording plain_repr (Json.loads plain_wording) nothing_set
           (answering [] None) chat_options any_options (u "model") None
           false []
  = Err {| cls := ValueError;
           descr := u "NOVITA_API_KEY environment variable is not set." |}
  /\ registry plain_wording plain_repr (Json.loads plain_wording)
              (fun _ => Some (u "from-env"))
              (answering [] None) chat_options any_options (u "model")
              (Some (u "explicit")) true [(u "title", VStr (u "Chat"))]
     = Ok (ChatInterface
             (get_fn plain_wording (Json.loads plain_wording)
                 (answering [] None) (u "model") (preprocess plain_repr)
                 postprocess (u "explicit") (Some coder_prompt))
             [(u "title", VStr (u "Chat"))]).
Proof.
  split.
  - apply (proj1 (registry_resolves_credential plain_wording plain_repr
                    (Json.loads plain_wording) nothing_set
                    (answering [] None) chat_options any_options (u "model")
                    false [])); reflexivity.
  - refine (proj2 (proj2 (proj2 (registry_resolves_credential
                    plain_wording plain_repr (Json.loads plain_wording)
                    (fun _ => Some (u "from-env")) (answering [] None)
                    chat_options any_options (u "model") true
                    [(u "title", VStr (u "Chat"))])
                  (u "explicit") eq_refl)) eq_refl eq_refl).
Defined.

(** ** The multimodal normaliser *)

(** C8.  For a structured message with attachments only the last one
    counts.  When its extension is png, jpg, jpeg or gif in any case and the
    file can be read, the result is the text block and an image block whose
    URL is the data URI of the file in base64.  For any other extension
    [handle_user_msg] raises [NotImplementedError] naming the extension; it
    does so without reading a file, and it has no access to the network. *)
Theorem handle_user_msg_attachments :
  forall wording open_rb d earlier path,
    dict_lookup (u "files") d = Some (VList (earlier ++ [VStr path])) ->
    (is_image_kind (extension path) = true ->
     forall text data,
       dict_lookup (u "text") d = Some text ->
       open_rb path = Ok data ->
       handle_user_msg wording open_rb (VDict d)
       = Ok (image_content text
               (u "data:image/" ++ extension path ++ u ";base64,"
                ++ b64encode data)))
    /\ (is_image_kind (extension path) = false ->
        handle_user_msg wording open_rb (VDict d)
        = Err {| cls := NotImplementedError;
                 descr := u "Not supported file type " ++ extension path |}).
Proof.
  intros * Hf.
  assert (E : handle_user_msg wording open_rb (VDict d)
             = if is_image_kind (extension path) then
                 encoded_str <- get_image_base64 open_rb path
                                  (extension path) ;;
                 text <- getitem wording (VDict d) (KStr (u "text")) ;;
                 Ok (image_content text encoded_str)
               else
                 Err {| cls := NotImplementedError;
                        descr := u "Not supported file type "
                                 ++ extension path |}).
  { unfold handle_user_msg.
    rewrite (getitem_dict wording _ _ _ Hf); cbn [bind len].
    rewrite nonempty_snoc; cbn [bind].
    rewrite getitem_last; cbn [bind as_path].
    reflexivity. }
  split; intros Hk.
  - intros text data Ht Hd; rewrite E, Hk.
    unfold get_image_base64; rewrite Hd; cbn [bind].
    now rewrite (getitem_dict wording _ _ _ Ht).
  - now rewrite E, Hk.
Qed.

Lemma handle_user_msg_attachments_witness :
  handle_user_msg plain_wording (one_file (u "/tmp/cat.PNG") (b "Man"))
    (VDict [(u "text", VStr (u "look"));
            (u "files", VList ([VStr (u "/tmp/notes.txt")]
                               ++ [VStr (u "/tmp/cat.PNG")]))])
  = Ok (image_content (VStr (u "look"))
          (u "data:image/" ++ extension (u "/tmp/cat.PNG") ++ u ";base64,"
           ++ b64encode (b "Man")))
  /\ handle_user_msg plain_wording (one_file (u "/tmp/cat.bmp") (b "Man"))
       (VDict [(u "text", VStr (u "look"));
               (u "files", VList ([] ++ [VStr (u "/tmp/cat.bmp")]))])
     = Err {| cls := NotImplementedError;
              descr := u "Not supported file type "
                       ++ extension (u "/tmp/cat.bmp") |}.
Proof.
  split.
  - apply (proj1 (@handle_user_msg_attachments plain_wording
                    (one_file (u "/tmp/cat.PNG") (b "Man"))
                    [(u "text", VStr (u "look"));
                     (u "files", VList ([VStr (u "/tmp/notes.txt")]
                                        ++ [VStr (u "/tmp/cat.PNG")]))]
                    [VStr (u "/tmp/notes.txt")] (u "/tmp/cat.PNG") eq_refl));
      reflexivity.
  - apply (proj2 (@handle_user_msg_attachments plain_wording
                    (one_file (u "/tmp/cat.bmp") (b "Man"))
                    [(u "text", VStr (u "look"));
                     (u "files", VList ([] ++ [VStr (u "/tmp/cat.bmp")]))]
                    [] (u "/tmp/cat.bmp") eq_refl));
      reflexivity.
Defined.

End Claims.

(* ===================================================================== *)
(** * Further properties of the code *)
(* ===================================================================== *)

Module Extras.

Import Builtins Novita Stream Facts.

Lemma startswith_app (p s : str) : startswith (p ++ s) p = true.
Proof.
  induction p as [|c p IH]; simpl; [now destruct s|].
  now rewrite N.eqb_refl, IH.
Qed.

(** The handler of the [try] block keeps what was yielded and adds at most
    the error value. *)
Lemma except_returned (g : generator) :
  ending g = None -> except_Exception g = g.
Proof. unfold except_Exception; now intros ->. Qed.

Lemma except_yields (g : generator) :
  exists tail, yields (except_Exception g) = yields g ++ tail.
Proof.
  unfold except_Exception; destruct (ending g) as [e|];
    [destruct (is_Exception e)|]; simpl.
  - now exists [u "Error: " ++ descr e].
  - exists []; now rewrite app_nil_r.
  - exists []; now rewrite app_nil_r.
Qed.

(** ** Lines of the response *)

Section Lines.

Variable wording : fault -> str.
Variable json_loads : str -> result value.

Abbreviation on_chunk := (Novita.on_chunk wording postprocess).
Abbreviation on_line := (Novita.on_line wording json_loads postprocess).
Abbreviation for_lines := (Novita.for_lines wording json_loads postprocess).

Lemma on_line_ignored (pm : str) (line : bytes) :
  ignored line = true -> on_line pm line = Ok (pm, []).
Proof.
  destruct line as [|c line]; [reflexivity|].
  unfold ignored; destruct (text_of (c :: line)) as [text|] eqn:Ht;
    [|discriminate].
  intros H; unfold Novita.on_line.
  rewrite (decode_text wording _ _ Ht); cbn [bind].
  destruct (startswith text (u "data:")); simpl in *; [|reflexivity].
  now rewrite H.
Qed.

Lemma on_line_falsy (pm : str) (line : bytes) (chunk : value) :
  chunk_of json_loads line = Some chunk ->
  falsy_choices chunk = true ->
  on_line pm line = Ok (pm, []).
Proof.
  intros Hc Hf; rewrite (on_line_chunk wording json_loads _ _ _ Hc).
  unfold falsy_choices in Hf; unfold Novita.on_chunk.
  destruct chunk; try discriminate.
  destruct (dict_lookup (u "choices") d) as [v|] eqn:E; [|discriminate].
  rewrite (getitem_dict wording _ _ _ E); cbn [bind].
  now destruct (truthy v).
Qed.

Lemma on_line_quiet (pm : str) (line : bytes) :
  quiet json_loads line = true -> on_line pm line = Ok (pm, []).
Proof.
  unfold quiet; intros H.
  apply orb_prop in H as [H|H]; [apply orb_prop in H as [H|H]|].
  - now apply on_line_ignored.
  - now apply on_line_malformed.
  - destruct (chunk_of json_loads line) as [chunk|] eqn:Hc; [|discriminate].
    now apply on_line_falsy with chunk.
Qed.

Lemma quiet_no_delta (line : bytes) :
  quiet json_loads line = true -> delta_of json_loads line = None.
Proof.
  unfold quiet, delta_of, chunk_of, ignored, malformed; intros H.
  destruct line as [|c line]; [reflexivity|].
  destruct (text_of (c :: line)) as [text|]; [|reflexivity].
  destruct (startswith text (u "data:")); simpl in *; [|reflexivity].
  destruct (str_eqb text (u "data: [DONE]")); simpl in *; [reflexivity|].
  destruct (json_loads _) as [chunk|e]; [|reflexivity].
  unfold falsy_choices in H; unfold content_of.
  destruct chunk; try reflexivity.
  destruct (dict_lookup (u "choices") d) as [v|]; [|reflexivity].
  destruct v as [| | | | |[|[] l]|]; try reflexivity; discriminate.
Qed.

(** Lines without effect can be filtered out. *)
Lemma for_lines_filter (q : bytes -> bool) (lines : list bytes)
  (broken : option raised) :
  (forall l pm, q l = true -> on_line pm l = Ok (pm, [])) ->
  forall pm, for_lines pm lines broken
             = for_lines pm (filter (fun l => negb (q l)) lines) broken.
Proof.
  intros Hq; induction lines as [|l lines IH]; intros pm; simpl;
    [reflexivity|].
  destruct (q l) eqn:E; simpl.
  - rewrite (Hq l pm E), <- IH; simpl.
    now destruct (for_lines pm lines broken).
  - destruct (on_line pm l) as [[pm' out]|e]; [now rewrite IH|reflexivity].
Qed.

(** A line can be replaced by one that the loop handles in the same way. *)
Lemma for_lines_replace (l l' : bytes) (pre rest : list bytes)
  (broken : option raised) :
  (forall pm, on_line pm l = on_line pm l') ->
  forall pm, for_lines pm (pre ++ l :: rest) broken
             = for_lines pm (pre ++ l' :: rest) broken.
Proof.
  intros Hs; induction pre as [|x pre IH]; intros pm; simpl.
  - now rewrite Hs.
  - destruct (on_line pm x) as [[pm' out]|e]; [now rewrite IH|reflexivity].
Qed.

(** A line that raises ends the loop. *)
Lemma for_lines_raises (pre rest : list bytes) (line : bytes)
  (broken : option raised) (ys : list str) (e : raised) :
  for_lines [] pre None = {| yields := ys; ending := None |} ->
  on_line (last ys []) line = Err e ->
  for_lines [] (pre ++ line :: rest) broken
  = {| yields := ys; ending := Some e |}.
Proof.
  intros Hpre He.
  rewrite (for_lines_app wording json_loads pre (line :: rest) broken
             _ _ Hpre).
  simpl; rewrite He; simpl; now rewrite app_nil_r.
Qed.

Lemma for_lines_all (lines : list bytes) (broken : option raised) :
  Forall (fun l => quiet json_loads l = true
                   \/ delta_of json_loads l <> None) lines ->
  forall pm, for_lines pm lines broken
             = {| yields := snapshots pm (deltas json_loads lines);
                  ending := broken |}.
Proof.
  induction 1 as [|l lines Hl _ IH]; intros pm; simpl; [reflexivity|].
  destruct Hl as [Hq|Hd].
  - rewrite (on_line_quiet pm _ Hq), IH, (quiet_no_delta _ Hq); reflexivity.
  - destruct (delta_of json_loads l) as [d|] eqn:E; [|congruence].
    rewrite (on_line_valid wording json_loads pm _ _ E), IH; reflexivity.
Qed.

Lemma last_snapshots (ds : list str) :
  forall acc, last (snapshots acc ds) acc = acc ++ concat ds.
Proof.
  induction ds as [|d ds IH]; intros acc; simpl snapshots; simpl concat.
  - now rewrite app_nil_r.
  - now rewrite last_cons_default, IH, app_assoc.
Qed.

Lemma length_snapshots (ds : list str) :
  forall acc, length (snapshots acc ds) = length ds.
Proof. induction ds as [|d ds IH]; intros acc; simpl; now rewrite ?IH. Qed.

(** The loop yields at most one value for each line. *)
Lemma for_lines_length (lines : list bytes) (broken : option raised) :
  forall pm, length (yields (for_lines pm lines broken)) <= length lines.
Proof.
  induction lines as [|l lines IH]; intros pm; simpl; [lia|].
  destruct (on_line pm l) as [[pm' out]|e] eqn:Hl; simpl; [|lia].
  apply on_line_shape in Hl as [_ [ [-> _] | -> ] ]; simpl;
    specialize (IH pm'); lia.
Qed.

(** What the loop yields for the first lines is the beginning of what it
    yields for all of them; when the first lines raise, the rest is never
    read. *)
Lemma for_lines_begins (pre rest : list bytes) (broken : option raised) :
  forall pm,
    (ending (for_lines pm pre None) = None
     /\ begins (yields (for_lines pm pre None))
               (yields (for_lines pm (pre ++ rest) broken)))
    \/ (ending (for_lines pm pre None) <> None
        /\ for_lines pm (pre ++ rest) broken = for_lines pm pre None).
Proof.
  induction pre as [|l pre IH]; intros pm; simpl.
  - left; split; [reflexivity | now exists (yields (for_lines pm rest broken))].
  - destruct (on_line pm l) as [[pm' out]|e]; simpl.
    + destruct (IH pm') as [[He [more Hm]]|[He Hs]].
      * left; split; [exact He|].
        exists more; now rewrite Hm, app_assoc.
      * right; split; [exact He | now rewrite Hs].
    + right; split; [discriminate | reflexivity].
Qed.

(** The way a chunk is handled depends on its first choice only. *)
Lemma on_chunk_first (pm : str) (chunk chunk' c : value) :
  first_choice chunk = Some c ->
  first_choice chunk' = Some c ->
  on_chunk pm chunk = on_chunk pm chunk'.
Proof.
  assert (E : forall k, first_choice k = Some c ->
                on_chunk pm k
                = (first_delta <- getitem wording c (KStr (u "delta")) ;;
                   delta <- get wording first_delta (u "content") (VStr []) ;;
                   partial_message <- iadd wording pm delta ;;
                   Ok (partial_message, [postprocess partial_message]))).
  { intros k H; unfold first_choice in H; unfold Novita.on_chunk.
    destruct k; try discriminate.
    destruct (dict_lookup (u "choices") d) as [v|] eqn:Ed; [|discriminate].
    destruct v as [| | | | |[|c0 l]|]; try discriminate; inv H.
    rewrite (getitem_dict wording _ _ _ Ed); reflexivity. }
  intros H H'; now rewrite (E _ H), (E _ H').
Qed.

(** Any postprocessing is applied to each snapshot as it is yielded, and
    has no part in the accumulator. *)
Lemma on_line_postprocess (p : str -> str) (pm : str) (line : bytes) :
  Novita.on_line wording json_loads p pm line
  = match on_line pm line with
    | Ok (pm', out) => Ok (pm', map p out)
    | Err e => Err e
    end.
Proof.
  unfold Novita.on_line; destruct line as [|c line]; [reflexivity|].
  destruct (decode wording (c :: line)) as [text|e]; [|reflexivity].
  cbn [bind]; destruct (startswith text _ && _); [|reflexivity].
  destruct (json_loads _) as [chunk|e]; cbn [bind].
  - unfold Novita.on_chunk.
    destruct (getitem wording chunk _) as [choices|e]; cbn [bind].
    + destruct (truthy choices); [|reflexivity].
      destruct (getitem wording choices _) as [first|e]; cbn [bind].
      * destruct (getitem wording first _) as [dl|e]; cbn [bind].
        -- destruct (get wording dl _ _) as [delta|e]; cbn [bind].
           ++ destruct (iadd wording pm delta) as [pm'|e]; cbn [bind].
              ** reflexivity.
              ** simpl; now destruct (is_JSONDecodeError e).
           ++ simpl; now destruct (is_JSONDecodeError e).
        -- simpl; now destruct (is_JSONDecodeError e).
      * simpl; now destruct (is_JSONDecodeError e).
    + simpl; now destruct (is_JSONDecodeError e).
  - simpl; now destruct (is_JSONDecodeError e).
Qed.

Lemma for_lines_postprocess (p : str -> str) (lines : list bytes)
  (broken : option raised) :
  forall pm,
    Novita.for_lines wording json_loads p pm lines broken
    = {| yields := map p (yields (for_lines pm lines broken));
         ending := ending (for_lines pm lines broken) |}.
Proof.
  induction lines as [|l lines IH]; intros pm; simpl; [reflexivity|].
  rewrite on_line_postprocess.
  destruct (on_line pm l) as [[pm' out]|e]; simpl; [|reflexivity].
  now rewrite IH, map_app.
Qed.

End Lines.

(** ** Calls of [fn] *)

Section Calls.

Variable wording : fault -> str.
Variable repr : value -> str.
Variable json_loads : str -> result value.
Variable post : request -> response.
Variables model_name api_key : str.
Variable system_prompt : option str.
Variable message : value.
Variable history : chat_history.

Abbreviation call :=
  (fn wording json_loads post model_name (preprocess repr) postprocess
      api_key system_prompt message history).

Abbreviation call_on lines broken :=
  (fn wording json_loads (answering lines broken) model_name
      (preprocess repr) postprocess api_key system_prompt message history).

Abbreviation request :=
  (sent repr model_name api_key system_prompt message history).

Abbreviation block :=
  (try_body wording json_loads post model_name postprocess
     (preprocess repr message history system_prompt)
     (request_headers api_key)).

Lemma call_on_lines (lines : list bytes) (broken : option raised) :
  call_on lines broken
  = except_Exception
      (for_lines wording json_loads postprocess [] lines broken).
Proof.
  exact (fn_answered wording repr json_loads (answering lines broken)
           model_name api_key system_prompt message history lines broken
           eq_refl).
Qed.

Lemma call_answered (lines : list bytes) (broken : option raised) :
  post request = Answered None lines broken ->
  call = call_on lines broken.
Proof.
  intros H; rewrite call_on_lines.
  exact (fn_answered wording repr json_loads post model_name api_key
           system_prompt message history lines broken H).
Qed.

(** X1.  Lines that yield nothing can be left out of a response without
    changing the call: empty lines, text without the data prefix (comments,
    event names), the sentinel, frames that [json.loads] refuses with
    [JSONDecodeError], and frames whose choices are false as a condition. *)
Theorem quiet_lines_are_dropped (lines : list bytes)
  (broken : option raised) :
  post request = Answered None lines broken ->
  call = call_on (filter (fun l => negb (quiet json_loads l)) lines) broken.
Proof.
  intros H; rewrite (call_answered _ _ H), !call_on_lines; f_equal.
  apply for_lines_filter; intros l pm; apply on_line_quiet.
Qed.

(** X2.  When every line is either a valid frame or a line that yields
    nothing, the call yields one snapshot for each valid frame and returns;
    the last value is the concatenation of all the deltas. *)
Theorem final_value_is_concatenation (lines : list bytes) :
  Forall (fun l => quiet json_loads l = true
                   \/ delta_of json_loads l <> None) lines ->
  post request = Answered None lines None ->
  call = {| yields := snapshots [] (deltas json_loads lines);
            ending := None |}
  /\ length (yields call) = length (deltas json_loads lines)
  /\ last (yields call) [] = concat (deltas json_loads lines).
Proof.
  intros Hall H.
  assert (E : call = {| yields := snapshots [] (deltas json_loads lines);
                        ending := None |}).
  { rewrite (call_answered _ _ H), call_on_lines.
    now rewrite (for_lines_all wording json_loads lines None Hall). }
  rewrite E; simpl; repeat split.
  - apply length_snapshots.
  - apply (last_snapshots (deltas json_loads lines) []).
Qed.

(** X3.  A line that is not valid UTF-8 ends the stream: after the
    snapshots of the lines before it, the call yields the error value of the
    [UnicodeDecodeError] and returns; the lines after it are not read. *)
Theorem undecodable_line_ends_stream (pre rest : list bytes) (frame : bytes)
  (broken : option raised) (ys : list str) :
  text_of frame = None ->
  for_lines wording json_loads postprocess [] pre None
  = {| yields := ys; ending := None |} ->
  post request = Answered None (pre ++ frame :: rest) broken ->
  call = {| yields := ys ++ [u "Error: " ++ wording (CannotDecode frame)];
            ending := None |}.
Proof.
  intros Ht Hpre H; rewrite (call_answered _ _ H), call_on_lines.
  assert (He : Novita.on_line wording json_loads postprocess (last ys [])
                 frame
               = Err {| cls := UnicodeDecodeError;
                        descr := wording (CannotDecode frame) |}).
  { destruct frame as [|c frame]; [discriminate|].
    unfold Novita.on_line, decode; unfold text_of in Ht; now rewrite Ht. }
  now rewrite (for_lines_raises wording json_loads pre rest frame broken
                 _ _ Hpre He).
Qed.

(** X4.  A frame whose delta has a content that is not a text (for one,
    null) ends the stream: the addition to the accumulator raises a
    [TypeError], and the call yields its error value and returns. *)
Theorem non_text_content_ends_stream (pre rest : list bytes) (frame : bytes)
  (broken : option raised) (chunk v : value) (ys : list str) :
  chunk_of json_loads frame = Some chunk ->
  content_value chunk = Some v ->
  type_of v <> TStr ->
  for_lines wording json_loads postprocess [] pre None
  = {| yields := ys; ending := None |} ->
  post request = Answered None (pre ++ frame :: rest) broken ->
  call = {| yields := ys ++ [u "Error: " ++ wording (CannotConcat (type_of v))];
            ending := None |}.
Proof.
  intros Hc Hv Ht Hpre H; rewrite (call_answered _ _ H), call_on_lines.
  assert (He : Novita.on_line wording json_loads postprocess (last ys [])
                 frame
               = Err {| cls := TypeError;
                        descr := wording (CannotConcat (type_of v)) |}).
  { rewrite (on_line_chunk wording json_loads _ _ _ Hc).
    unfold content_value in Hv; unfold Novita.on_chunk.
    destruct chunk; try discriminate.
    destruct (dict_lookup (u "choices") d) as [cs|] eqn:E1; [|discriminate].
    destruct cs as [| | | | |[|[| | | | | |choice] l]|]; try discriminate.
    destruct (dict_lookup (u "delta") choice) as [dl|] eqn:E2;
      [|discriminate].
    destruct dl as [| | | | | |delta]; try discriminate.
    rewrite (getitem_dict wording _ _ _ E1); cbn [bind truthy].
    change (getitem wording (VList (VDict choice :: l)) (KInt 0))
      with (@Ok value (VDict choice)); cbn [bind].
    rewrite (getitem_dict wording _ _ _ E2); cbn [bind get].
    rewrite Hv; cbn [bind].
    destruct v; try reflexivity; now contradiction Ht. }
  now rewrite (for_lines_raises wording json_loads pre rest frame broken
                 _ _ Hpre He).
Qed.

(** X5.  Only the first choice of a chunk counts: two frames whose chunks
    have the same first choice are interchangeable, whatever other choices
    and other keys the chunks have. *)
Theorem only_first_choice_counts (pre rest : list bytes)
  (frame frame' : bytes) (broken : option raised) (chunk chunk' c : value) :
  chunk_of json_loads frame = Some chunk ->
  chunk_of json_loads frame' = Some chunk' ->
  first_choice chunk = Some c ->
  first_choice chunk' = Some c ->
  post request = Answered None (pre ++ frame :: rest) broken ->
  call = call_on (pre ++ frame' :: rest) broken.
Proof.
  intros Hc Hc' Hf Hf' H; rewrite (call_answered _ _ H), !call_on_lines.
  f_equal; apply for_lines_replace; intros pm.
  rewrite (on_line_chunk wording json_loads _ _ _ Hc).
  rewrite (on_line_chunk wording json_loads _ _ _ Hc').
  now rewrite (on_chunk_first wording pm chunk chunk' c Hf Hf').
Qed.

(** X6.  White space around the payload of a data frame does not matter,
    nor does its absence after the prefix: two frames whose payloads are
    equal once stripped are interchangeable, as long as neither line is the
    sentinel. *)
Theorem payload_is_stripped (pre rest : list bytes) (frame frame' : bytes)
  (broken : option raised) (payload payload' : str) :
  text_of frame = Some (u "data:" ++ payload) ->
  text_of frame' = Some (u "data:" ++ payload') ->
  strip payload = strip payload' ->
  payload <> u " [DONE]" ->
  payload' <> u " [DONE]" ->
  post request = Answered None (pre ++ frame :: rest) broken ->
  call = call_on (pre ++ frame' :: rest) broken.
Proof.
  intros Ht Ht' Hs Hn Hn' H; rewrite (call_answered _ _ H), !call_on_lines.
  f_equal; apply for_lines_replace; intros pm.
  assert (E : forall line p,
             text_of line = Some (u "data:" ++ p) -> p <> u " [DONE]" ->
             Novita.on_line wording json_loads postprocess pm line
             = skipping_decode_errors pm
                 (chunk <- json_loads (strip p) ;;
                  Novita.on_chunk wording postprocess pm chunk)).
  { intros line p Hl Hp.
    destruct line as [|c line]; [discriminate|].
    unfold Novita.on_line; rewrite (decode_text wording _ _ Hl); cbn [bind].
    assert (Hd : str_eqb (u "data:" ++ p) (u "data: [DONE]") = false).
    { destruct (str_eqb (u "data:" ++ p) (u "data: [DONE]")) eqn:Eq;
        [|reflexivity].
      apply str_eqb_eq in Eq.
      change (u "data: [DONE]") with (u "data:" ++ u " [DONE]") in Eq.
      apply app_inv_head in Eq; contradiction. }
    rewrite Hd, startswith_app.
    change (skipn 5 (u "data:" ++ p)) with p.
    reflexivity. }
  now rewrite (E _ _ Ht Hn), (E _ _ Ht' Hn'), Hs.
Qed.

(** X7.  No [Exception] leaves a call.  A call ends with an exception only
    when the [try] block ended with one that is not an [Exception] (an
    interrupt); then nothing is yielded for it, and it reaches the caller
    as it is. *)
Theorem only_interrupts_propagate :
  (forall e, ending call = Some e ->
             is_Exception e = false
             /\ ending block = Some e /\ yields call = yields block)
  /\ (forall e, is_Exception e = false ->
                post request = Refused e ->
                call = {| yields := []; ending := Some e |}).
Proof.
  split.
  - intros e; unfold fn, except_Exception.
    change (try_body _ _ _ _ _ _ _) with block.
    destruct (ending block) as [e0|] eqn:Eb; [|rewrite Eb; discriminate].
    destruct (is_Exception e0) eqn:Ex; simpl; [discriminate|].
    rewrite Eb; intros H; inv H; auto.
  - intros e He H.
    rewrite (fn_posts wording repr json_loads post model_name api_key
               system_prompt message history), H.
    unfold except_Exception; simpl; now rewrite He.
Qed.

(** X8.  Streaming is causal: what a call yields for the first lines of a
    response is the beginning of what it yields for the whole response. *)
Theorem more_lines_only_add_values (pre rest : list bytes)
  (broken : option raised) :
  begins (yields (call_on pre None)) (yields (call_on (pre ++ rest) broken)).
Proof.
  rewrite !call_on_lines.
  destruct (for_lines_begins wording json_loads pre rest broken [])
    as [[He [more Hm]]|[He Hs]].
  - rewrite (except_returned _ He).
    destruct (except_yields
                (for_lines wording json_loads postprocess []
                   (pre ++ rest) broken)) as [tail Ht].
    exists (more ++ tail); now rewrite Ht, Hm, app_assoc.
  - rewrite Hs; exists []; now rewrite app_nil_r.
Qed.

(** X9.  A call yields at most one value for each line of the response,
    and at most one more, the error value. *)
Theorem at_most_one_value_per_line (lines : list bytes)
  (broken : option raised) :
  post request = Answered None lines broken ->
  length (yields call) <= length lines + 1.
Proof.
  intros H; rewrite (call_answered _ _ H), call_on_lines.
  pose proof (for_lines_length wording json_loads lines broken []) as L.
  unfold except_Exception.
  destruct (ending (for_lines _ _ _ _ lines broken)) as [e|];
    [destruct (is_Exception e)|]; simpl; rewrite ?length_app; simpl; lia.
Qed.

(** X10.  [get_fn] applies the postprocessing it is given to every
    snapshot as it is yielded and to nothing else: the accumulator, the end
    of the call and the error value are those of the call without
    postprocessing. *)
Theorem postprocess_maps_snapshots (p : str -> str) :
  let custom :=
    get_fn wording json_loads post model_name (preprocess repr) p api_key
           system_prompt message history in
  yields custom
  = map p (yields block)
    ++ match ending block with
       | Some e => if is_Exception e then [u "Error: " ++ descr e] else []
       | None => []
       end
  /\ ending custom = ending call.
Proof.
  assert (E : try_body wording json_loads post model_name p
                (preprocess repr message history system_prompt)
                (request_headers api_key)
              = {| yields := map p (yields block);
                   ending := ending block |}).
  { unfold try_body; simpl.
    destruct (post _) as [e | [e|] lines broken]; try reflexivity.
    apply for_lines_postprocess. }
  intros custom; subst custom; unfold get_fn, fn; rewrite E.
  change (try_body _ _ _ _ _ _ _) with block.
  unfold except_Exception; simpl.
  destruct (ending block) as [e|] eqn:Eb; [destruct (is_Exception e)|];
    simpl; rewrite ?app_nil_r, ?Eb; auto.
Qed.

(** X11.  When the preprocessing that [get_fn] is given returns something
    without messages, the lookup fails inside the [try] block: the call
    yields the error value of that failure and returns, and nothing is
    posted, whatever the network. *)
Theorem inputs_without_messages
  (custom : value -> chat_history -> option str -> value) (p : str -> str)
  (e : raised) :
  getitem wording (custom message history system_prompt) (KStr (u "messages"))
  = Err e ->
  get_fn wording json_loads post model_name custom p api_key system_prompt
         message history
  = {| yields := [u "Error: " ++ descr e]; ending := None |}.
Proof.
  intros H; unfold get_fn, fn, try_body; rewrite H.
  destruct (getitem_escapes wording _ _ _ H) as [_ Hx].
  unfold except_Exception; simpl; now rewrite Hx.
Qed.

End Calls.

(** ** The message builder *)

Lemma fold_turn_entries (repr : value -> str) (history : chat_history) :
  forall messages,
    fold_left (turn repr) history messages
    = messages ++ flat_map (entry_messages repr) history.
Proof.
  induction history as [|[user_msg assistant_msg] history IH];
    intros messages; simpl.
  - now rewrite app_nil_r.
  - rewrite IH; unfold entry_messages; simpl.
    destruct assistant_msg; now rewrite <- ?app_assoc.
Qed.

Lemma build_messages_entries (repr : value -> str) (message : value)
  (history : chat_history) (system_prompt : option str) :
  build_messages repr message history system_prompt
  = system_messages system_prompt
    ++ flat_map (entry_messages repr) history
    ++ [message_of "user" (VStr (py_str repr message))].
Proof.
  unfold build_messages; rewrite fold_turn_entries, <- app_assoc.
  now destruct system_prompt as [[|c s]|].
Qed.

Lemma length_entries (repr : value -> str) (history : chat_history) :
  length (flat_map (entry_messages repr) history)
  = length history + length (filter has_assistant history).
Proof.
  induction history as [|[user_msg assistant_msg] history IH]; simpl;
    [reflexivity|].
  rewrite length_app, IH; unfold has_assistant; simpl.
  destruct assistant_msg; simpl; lia.
Qed.

Lemma entries_are_text (repr : value -> str) (history : chat_history) :
  Forall (fun m => text_message m
                   /\ role_of m <> Some (VStr (u "system")))
         (flat_map (entry_messages repr) history).
Proof.
  assert (U : forall s, text_message (message_of "user" (VStr s))
                        /\ role_of (message_of "user" (VStr s))
                           <> Some (VStr (u "system"))).
  { intros s; split; [exists "user"%string, s; auto | discriminate]. }
  assert (A : forall s, text_message (message_of "assistant" (VStr s))
                        /\ role_of (message_of "assistant" (VStr s))
                           <> Some (VStr (u "system"))).
  { intros s; split; [exists "assistant"%string, s; auto | discriminate]. }
  induction history as [|[user_msg assistant_msg] history IH]; simpl;
    [constructor|].
  constructor; [apply U|].
  apply Forall_app; split; [|exact IH].
  destruct assistant_msg; constructor; try apply A; constructor.
Qed.

(** X12.  The message list follows the history entry by entry: after the
    system message of a prompt that is given, every entry gives its user
    message, followed by its assistant message unless the assistant side is
    [None], and the new user message comes last.  So an entry without
    assistant side counts for one message and any other for two. *)
Theorem messages_follow_history (repr : value -> str) (message : value)
  (history : chat_history) (system_prompt : option str) :
  build_messages repr message history system_prompt
  = system_messages system_prompt
    ++ flat_map (entry_messages repr) history
    ++ [message_of "user" (VStr (py_str repr message))]
  /\ length (build_messages repr message history system_prompt)
     = (if given system_prompt then 1 else 0)
       + length history + length (filter has_assistant history) + 1.
Proof.
  split; [apply build_messages_entries|].
  rewrite build_messages_entries, !length_app, length_entries.
  rewrite length_system_messages; simpl; lia.
Qed.

(** X13.  Every message built has one of the three roles and a text as
    content, whatever the message and the history hold; the last message is
    the new user message; the first is the system message when a prompt is
    given, and no message has the system role when none is. *)
Theorem messages_are_text (repr : value -> str) (message : value)
  (history : chat_history) (system_prompt : option str) :
  let messages := build_messages repr message history system_prompt in
  Forall text_message messages
  /\ last messages VNone = message_of "user" (VStr (py_str repr message))
  /\ (forall s, system_prompt = Some s -> given system_prompt = true ->
                hd VNone messages = message_of "system" (VStr s))
  /\ (given system_prompt = false ->
      Forall (fun m => role_of m <> Some (VStr (u "system"))) messages).
Proof.
  intros messages; subst messages; rewrite build_messages_entries.
  pose proof (entries_are_text repr history) as He.
  assert (U : text_message (message_of "user" (VStr (py_str repr message))))
    by (exists "user"%string, (py_str repr message); auto).
  repeat split.
  - apply Forall_app; split.
    + destruct system_prompt as [[|c s]|]; simpl; constructor; [|constructor].
      exists "system"%string, (c :: s); auto.
    + apply Forall_app; split; [|now constructor].
      eapply Forall_impl; [|exact He]; now intros m [Hm _].
  - now rewrite app_assoc, last_last.
  - intros s -> Hg; destruct s as [|c s]; [discriminate|reflexivity].
  - intros Hg.
    assert (system_messages system_prompt = []) as ->
      by (destruct system_prompt as [[|c s]|]; simpl in *; congruence).
    rewrite app_nil_l; apply Forall_app; split.
    + eapply Forall_impl; [|exact He]; now intros m [_ Hm].
    + constructor; [discriminate | constructor].
Qed.

(** X14.  A conversation grows by appending: when the last exchange is
    added to the history, the new message list is the previous one followed
    by the assistant message and the new user message. *)
Theorem conversation_grows (repr : value -> str) (message answer next : value)
  (history : chat_history) (system_prompt : option str) :
  answer <> VNone ->
  build_messages repr next (history ++ [(message, answer)]) system_prompt
  = build_messages repr message history system_prompt
    ++ [message_of "assistant" (VStr (py_str repr answer));
        message_of "user" (VStr (py_str repr next))].
Proof.
  intros Ha; rewrite !build_messages_entries, flat_map_app; simpl.
  unfold entry_messages at 2; simpl.
  rewrite <- !app_assoc; simpl.
  destruct answer; try reflexivity; now contradiction Ha.
Qed.

(** ** The multimodal normaliser *)

(** X15.  Without attachment a message stands for its text: a plain text
    is returned as it is, and a structured message whose files are [None]
    or the empty list gives its text field. *)
Theorem message_without_attachment (wording : fault -> str)
  (open_rb : str -> result bytes) :
  (forall s, handle_user_msg wording open_rb (VStr s) = Ok (VStr s))
  /\ (forall d files text,
         dict_lookup (u "files") d = Some files ->
         files = VNone \/ files = VList [] ->
         dict_lookup (u "text") d = Some text ->
         handle_user_msg wording open_rb (VDict d) = Ok text).
Proof.
  split; [reflexivity|].
  intros d files text Hf Hn Ht; unfold handle_user_msg.
  rewrite (getitem_dict wording _ _ _ Hf); cbn [bind].
  destruct Hn as [-> | ->]; cbn [bind len length Nat.ltb Nat.leb];
    exact (getitem_dict wording _ _ _ Ht).
Qed.

(** X16.  The failures of [handle_user_msg]: a message that is neither a
    text nor a dict raises [NotImplementedError] without description; a dict
    without files raises the [KeyError] of files, even when it has a text;
    an image that cannot be opened or read raises the exception of [open]
    or [read] unchanged, whatever its class and whether the message has a
    text or not; an image in a message without text raises the [KeyError] of
    text, after the file has been read. *)
Theorem handle_user_msg_failures (wording : fault -> str)
  (open_rb : str -> result bytes) :
  (forall message,
      type_of message <> TStr -> type_of message <> TDict ->
      handle_user_msg wording open_rb message
      = Err {| cls := NotImplementedError; descr := [] |})
  /\ (forall d,
         dict_lookup (u "files") d = None ->
         handle_user_msg wording open_rb (VDict d)
         = Err {| cls := KeyError; descr := u "'files'" |})
  /\ (forall d earlier path,
         dict_lookup (u "files") d = Some (VList (earlier ++ [VStr path])) ->
         is_image_kind (extension path) = true ->
         (forall e,
             open_rb path = Err e ->
             handle_user_msg wording open_rb (VDict d) = Err e)
         /\ (forall data,
                open_rb path = Ok data ->
                dict_lookup (u "text") d = None ->
                handle_user_msg wording open_rb (VDict d)
                = Err {| cls := KeyError; descr := u "'text'" |})).
Proof.
  repeat split.
  - intros message Hs Hd; destruct message; try reflexivity;
      now contradiction.
  - intros d Hf; unfold handle_user_msg, getitem; now rewrite Hf.
  - intros e Ho; unfold handle_user_msg.
    rewrite (getitem_dict wording _ _ _ H); cbn [bind len].
    rewrite nonempty_snoc; cbn [bind].
    rewrite getitem_last; cbn [bind as_path].
    fold (extension path); fold (is_image_kind (extension path)).
    rewrite H0; unfold get_image_base64; now rewrite Ho.
  - intros data Ho Ht; unfold handle_user_msg.
    rewrite (getitem_dict wording _ _ _ H); cbn [bind len].
    rewrite nonempty_snoc; cbn [bind].
    rewrite getitem_last; cbn [bind as_path].
    fold (extension path); fold (is_image_kind (extension path)).
    rewrite H0; unfold get_image_base64; rewrite Ho; cbn [bind].
    unfold getitem; now rewrite Ht.
Qed.

Lemma len_cases (wording : fault -> str) (files : value) :
  files = VNone
  \/ (exists n, files <> VNone /\ len wording files = Ok n)
  \/ (exists e, files <> VNone /\ len wording files = Err e).
Proof.
  destruct files; [now left | ..]; right;
    (destruct (len wording _) as [n|e];
     [left; exists n | right; exists e];
     (split; [discriminate | reflexivity])).
Qed.

(** X17.  What [handle_user_msg] returns is one of three things: the plain
    text it was given; the text field of a dict whose files are [None] or
    empty; or, for a dict whose last file has an image extension and can be
    read, the text block with the image block of that file.  It never
    returns an image block for another kind of file, nor a text in place of
    an attachment it was given. *)
Theorem handle_user_msg_results (wording : fault -> str)
  (open_rb : str -> result bytes) (message v : value) :
  handle_user_msg wording open_rb message = Ok v ->
  (exists s, message = VStr s /\ v = VStr s)
  \/ (exists d files,
         message = VDict d
         /\ dict_lookup (u "files") d = Some files
         /\ (files = VNone \/ len wording files = Ok 0)
         /\ dict_lookup (u "text") d = Some v)
  \/ (exists d files path text data,
         message = VDict d
         /\ dict_lookup (u "files") d = Some files
         /\ getitem wording files (KInt (-1)) = Ok (VStr path)
         /\ is_image_kind (extension path) = true
         /\ open_rb path = Ok data
         /\ dict_lookup (u "text") d = Some text
         /\ v = image_content text
                  (uri_head (extension path) ++ b64encode data)).
Proof.
  assert (G : forall d k x, getitem wording (VDict d) (KStr k) = Ok x ->
                            dict_lookup k d = Some x).
  { intros d k x; unfold getitem; destruct (dict_lookup k d);
      intros E; now inv E. }
  intros H; destruct message; try discriminate.
  - left; exists s; split; [reflexivity | now inv H].
  - right; unfold handle_user_msg in H.
    destruct (getitem wording (VDict d) (KStr (u "files"))) as [files|]
      eqn:Ef; [|discriminate].
    apply G in Ef; cbn [bind] in H.
    destruct (len_cases wording files)
      as [-> | [(n & Hn & El) | (e & Hn & El)]].
    + cbn [bind] in H; apply G in H.
      left; exists d, VNone; auto.
    + assert (E' : match files with
                   | VNone => Ok false
                   | _ => n <- len wording files ;; Ok (0 <? n)
                   end = Ok (0 <? n)).
      { destruct files; try contradiction; now rewrite El. }
      rewrite E' in H; cbn [bind] in H.
      destruct n as [|n]; cbn [Nat.ltb Nat.leb] in H.
      * apply G in H; left; exists d, files; auto.
      * right.
        destruct (getitem wording files (KInt (-1))) as [last_file|] eqn:Eg;
          [|discriminate].
        cbn [bind] in H.
        destruct last_file; try discriminate; cbn [bind as_path] in H.
        fold (extension s) in H; fold (is_image_kind (extension s)) in H.
        destruct (is_image_kind (extension s)) eqn:Ek; [|discriminate].
        unfold get_image_base64 in H.
        destruct (open_rb s) as [data|] eqn:Eo; [|discriminate].
        cbn [bind] in H.
        destruct (getitem wording (VDict d) (KStr (u "text"))) as [text|]
          eqn:Et; [|discriminate].
        apply G in Et; cbn [bind] in H; inv H.
        exists d, files, s, text, data; repeat split; auto.
        unfold uri_head; now rewrite <- !app_assoc.
    + exfalso.
      assert (E' : match files with
                   | VNone => Ok false
                   | _ => n <- len wording files ;; Ok (0 <? n)
                   end = @Err bool e).
      { destruct files; try contradiction; now rewrite El. }
      rewrite E' in H; discriminate.
Qed.

(** ** The factory *)

Section Factory.

Variable wording : fault -> str.
Variable repr : value -> str.
Variable json_loads : str -> result value.
Variable environ : str -> option str.
Variable post : request -> response.
Variable ChatInterface_init :
  (value -> chat_history -> generator) -> dict -> option raised.
Variable Interface_init :
  (value -> chat_history -> generator) -> value -> value -> dict
  -> option raised.

Abbreviation registry_of name token coder kwargs :=
  (registry wording repr json_loads environ post ChatInterface_init
            Interface_init name token coder kwargs).

Abbreviation bound_fn name key coder :=
  (get_fn wording json_loads post name (preprocess repr) postprocess key
          (Some (if coder then coder_prompt else default_prompt))).

Lemma registry_cases (name : str) (token : option str) (coder : bool)
  (kwargs : dict) :
  (given (or_else token (environ (u "NOVITA_API_KEY"))) = false
   /\ registry_of name token coder kwargs
      = Err {| cls := ValueError;
               descr := u "NOVITA_API_KEY environment variable is not set." |})
  \/ (exists key,
         or_else token (environ (u "NOVITA_API_KEY")) = Some key
         /\ key <> []
         /\ registry_of name token coder kwargs
            = new_ChatInterface wording ChatInterface_init
                (bound_fn name key coder) kwargs).
Proof.
  unfold registry.
  destruct (or_else token (environ (u "NOVITA_API_KEY"))) as [[|c k]|];
    [now left | | now left].
  right; exists (c :: k); repeat split; [discriminate|].
  simpl given; cbv iota; simpl negb; cbv iota.
  now destruct coder.
Qed.

(** X19.  The failures of [registry].  Without a credential (no token or an
    empty one, and the environment variable unset or empty) it raises the
    [ValueError] of the missing key, whatever the options.  With a
    credential it fails only where the construction of the widget fails:
    with the [TypeError] of a keyword given twice when the options name
    [fn], and otherwise with the exception that Gradio raises for the
    function and the options, if it raises one. *)
Theorem registry_failures (name : str) (token : option str)
  (coder : bool) (kwargs : dict) :
  (given token = false ->
   given (environ (u "NOVITA_API_KEY")) = false ->
   registry_of name token coder kwargs
   = Err {| cls := ValueError;
            descr := u "NOVITA_API_KEY environment variable is not set." |})
  /\ (forall key,
         or_else token (environ (u "NOVITA_API_KEY")) = Some key ->
         key <> [] ->
         (forall v,
             dict_lookup (u "fn") kwargs = Some v ->
             registry_of name token coder kwargs
             = Err {| cls := TypeError;
                      descr := wording (RepeatedKeyword (u "ChatInterface")
                                          (u "fn")) |})
         /\ (forall e,
                dict_lookup (u "fn") kwargs = None ->
                ChatInterface_init (bound_fn name key coder) kwargs = Some e ->
                registry_of name token coder kwargs = Err e))
  /\ (forall e,
         registry_of name token coder kwargs = Err e ->
         (given token = false
          /\ given (environ (u "NOVITA_API_KEY")) = false
          /\ e = {| cls := ValueError;
                    descr :=
                      u "NOVITA_API_KEY environment variable is not set." |})
         \/ (exists key,
                or_else token (environ (u "NOVITA_API_KEY")) = Some key
                /\ key <> []
                /\ ((dict_lookup (u "fn") kwargs <> None
                     /\ e = {| cls := TypeError;
                               descr := wording
                                          (RepeatedKeyword (u "ChatInterface")
                                             (u "fn")) |})
                    \/ (dict_lookup (u "fn") kwargs = None
                        /\ ChatInterface_init (bound_fn name key coder) kwargs
                           = Some e)))).
Proof.
  destruct (registry_cases name token coder kwargs)
    as [[Hg Hr] | (key & Hk & Hn & Hr)]; rewrite Hr;
    [|rewrite new_ChatInterface_cases]; (split; [|split]).
  - reflexivity.
  - intros key Hk Hn; rewrite Hk in Hg.
    destruct key; [contradiction | discriminate].
  - intros e E; inv E; left; unfold or_else in Hg.
    destruct (given token) eqn:Et; [congruence | auto].
  - intros Ht He; unfold or_else in Hk; rewrite Ht in Hk.
    rewrite Hk in He; destruct key; [contradiction | discriminate].
  - intros key' Hk' _; rewrite Hk in Hk'; inv Hk'; split.
    + now intros v ->.
    + now intros e -> ->.
  - intros e E; right; exists key; split; [exact Hk | split; [exact Hn|]].
    destruct (dict_lookup (u "fn") kwargs) as [v|].
    + left; split; [discriminate | now inv E].
    + right; split; [reflexivity|].
      destruct (ChatInterface_init (bound_fn name key coder) kwargs);
        [now inv E | discriminate].
Qed.

(** X20.  When [registry] returns, it returns a chat widget, never the
    plain interface; the options are passed on unchanged, they do not name
    [fn] and Gradio has accepted them; the function is the one of [get_fn]
    for the model, with the coder prompt or the default prompt as the flag
    says, and with the token as key when one is supplied, else the value of
    the environment variable.  It does return, with the key of the
    environment, when no token is supplied, the options do not name [fn] and
    Gradio accepts them. *)
Theorem registry_binds_chat_widget (name : str) (token : option str)
  (coder : bool) (kwargs : dict) :
  (forall widget,
      registry_of name token coder kwargs = Ok widget ->
      exists key,
        key <> []
        /\ (given token = true -> token = Some key)
        /\ (given token = false ->
            environ (u "NOVITA_API_KEY") = Some key)
        /\ dict_lookup (u "fn") kwargs = None
        /\ ChatInterface_init (bound_fn name key coder) kwargs = None
        /\ widget = ChatInterface (bound_fn name key coder) kwargs)
  /\ (forall key,
         given token = false ->
         environ (u "NOVITA_API_KEY") = Some key ->
         key <> [] ->
         dict_lookup (u "fn") kwargs = None ->
         ChatInterface_init (bound_fn name key coder) kwargs = None ->
         registry_of name token coder kwargs
         = Ok (ChatInterface (bound_fn name key coder) kwargs)).
Proof.
  destruct (registry_cases name token coder kwargs)
    as [[Hg Hr] | (key & Hk & Hn & Hr)]; rewrite Hr;
    [|rewrite new_ChatInterface_cases]; split.
  - discriminate.
  - intros key Ht He Hn; unfold or_else in Hg; rewrite Ht, He in Hg.
    destruct key; [contradiction | discriminate].
  - intros widget E; exists key; unfold or_else in Hk.
    destruct (dict_lookup (u "fn") kwargs); [discriminate|].
    destruct (ChatInterface_init (bound_fn name key coder) kwargs);
      [discriminate|].
    inv E; destruct (given token); repeat split; auto; discriminate.
  - intros key' Ht He _ Hf Hi; unfold or_else in Hk; rewrite Ht, He in Hk.
    inv Hk; now rewrite Hf, Hi.
Qed.

(** X21.  The pipeline that [get_pipeline] gives for any model is the one
    [get_interface_args] knows: it returns no inputs, no outputs and the
    pre- and postprocessing of the chat.  For any other pipeline it raises
    the [ValueError] that names the pipeline. *)
Theorem pipeline_is_chat (system_prompt : option str) :
  (forall name,
      get_interface_args repr (get_pipeline name) system_prompt
      = Ok {| inputs := VNone; outputs := VNone;
              args_preprocess := preprocess repr;
              args_postprocess := postprocess |})
  /\ (forall pipeline,
         pipeline <> u "chat" ->
         get_interface_args repr pipeline system_prompt
         = Err {| cls := ValueError;
                  descr := u "Unsupported pipeline type: " ++ pipeline |}).
Proof.
  split; [reflexivity|].
  intros pipeline Hp; unfold get_interface_args.
  destruct (str_eqb pipeline (u "chat")) eqn:E; [|reflexivity].
  now apply str_eqb_eq in E.
Qed.

(** X22.  Every call of the function of the widget posts one request: to
    the chat completions address, with the credential as bearer token, for
    the model that [registry] was given, streaming, with at most 1000
    tokens, and with messages that start with the system message of the
    chosen prompt, go on with the history and end with the new user
    message. *)
Theorem widget_request (name : str) (token : option str) (coder : bool)
  (kwargs options : dict) (f : value -> chat_history -> generator) :
  registry_of name token coder kwargs = Ok (ChatInterface f options) ->
  exists key,
    or_else token (environ (u "NOVITA_API_KEY")) = Some key
    /\ forall message history,
        f message history
        = handle_response wording json_loads
            (post
               {| url := u "https://api.novita.ai/v3/openai/chat/completions";
                  headers := [(u "Content-Type", u "application/json");
                              (u "Authorization", u "Bearer " ++ key)];
                  json :=
                    VDict
                      [(u "model", VStr name);
                       (u "messages",
                        VList
                          (message_of "system"
                             (VStr (if coder then coder_prompt
                                    else default_prompt))
                           :: flat_map (entry_messages repr) history
                           ++ [message_of "user"
                                 (VStr (py_str repr message))]));
                       (u "stream", VBool true);
                       (u "max_tokens", VInt 1000)];
                  stream := true |}).
Proof.
  destruct (registry_cases name token coder kwargs)
    as [[Hg Hr] | (key & Hk & Hn & Hr)]; rewrite Hr; [discriminate|].
  intros E; apply new_ChatInterface_returns in E; inv E.
  exists key; split; [exact Hk|].
  intros message history; unfold get_fn.
  rewrite (fn_posts wording repr json_loads post name key _ message history).
  unfold handle_response, sent, completion_request, request_headers.
  rewrite build_messages_entries.
  now destruct coder.
Qed.

End Factory.

(** ** Concrete instances *)

Lemma quiet_lines_are_dropped_witness :
  example_call
    [b "";
     b ": keep-alive";
     b (dq "data: {'choices':[{'delta':{'content':'Hi'}}]}");
     b (dq "data: {'choices':[{'delta'");
     b (dq "data: {'choices':[]}");
     b (dq "data: {'choices':null}");
     b "data: [DONE]";
     b (dq "data: {'choices':[{'delta':{'content':' there'}}]}")]
    None
  = example_call
      [b (dq "data: {'choices':[{'delta':{'content':'Hi'}}]}");
       b (dq "data: {'choices':[{'delta':{'content':' there'}}]}")]
      None.
Proof.
  exact (quiet_lines_are_dropped plain_wording plain_repr
           (Json.loads plain_wording) _ (u "model") (u "key") None
           (VStr (u "hello")) [] _ None eq_refl).
Defined.

Lemma final_value_is_concatenation_witness :
  last (yields
          (example_call
             [b (dq "data: {'choices':[{'delta':{'content':'Hi'}}]}");
              b "";
              b (dq "data: {'choices':[{'delta':{'content':' there'}}]}");
              b "data: [DONE]"]
             None)) []
  = concat [u "Hi"; u " there"].
Proof.
  refine (proj2 (proj2 (final_value_is_concatenation plain_wording plain_repr
                          (Json.loads plain_wording) _ (u "model") (u "key")
                          None (VStr (u "hello")) [] _ _ eq_refl))).
  repeat (constructor;
          [first [left; vm_compute; reflexivity
                 | right; vm_compute; discriminate]|]).
  constructor.
Defined.

Lemma undecodable_line_ends_stream_witness :
  example_call
    ([b (dq "data: {'choices':[{'delta':{'content':'Hi'}}]}")]
     ++ [xff]
     :: [b (dq "data: {'choices':[{'delta':{'content':' there'}}]}")])
    None
  = {| yields := [u "Hi"] ++ [u "Error: " ++ plain_wording (CannotDecode [xff])];
       ending := None |}.
Proof.
  exact (undecodable_line_ends_stream plain_wording plain_repr
           (Json.loads plain_wording) _ (u "model") (u "key") None
           (VStr (u "hello")) []
           [b (dq "data: {'choices':[{'delta':{'content':'Hi'}}]}")]
           _ [xff] None [u "Hi"] eq_refl eq_refl eq_refl).
Defined.

Lemma non_text_content_ends_stream_witness :
  example_call
    ([b (dq "data: {'choices':[{'delta':{'content':'Hi'}}]}")]
     ++ b (dq "data: {'choices':[{'delta':{'content':null}}]}")
     :: [b (dq "data: {'choices':[{'delta':{'content':' there'}}]}")])
    None
  = {| yields := [u "Hi"]
                 ++ [u "Error: "
                     ++ plain_wording (CannotConcat (type_of VNone))];
       ending := None |}.
Proof.
  refine (non_text_content_ends_stream plain_wording plain_repr
            (Json.loads plain_wording) _ (u "model") (u "key") None
            (VStr (u "hello")) []
            [b (dq "data: {'choices':[{'delta':{'content':'Hi'}}]}")]
            _ (b (dq "data: {'choices':[{'delta':{'content':null}}]}")) None
            _ VNone [u "Hi"] eq_refl eq_refl _ eq_refl eq_refl).
  discriminate.
Defined.

Lemma only_first_choice_counts_witness :
  example_call
    ([] ++
     b (dq "data: {'id':7,'choices':[{'delta':{'content':'Hi'}},{'delta':{'content':'Yo'}}]}")
     :: [])
    None
  = example_call
      ([] ++ b (dq "data: {'choices':[{'delta':{'content':'Hi'}}]}") :: [])
      None.
Proof.
  exact (only_first_choice_counts plain_wording plain_repr
           (Json.loads plain_wording) _ (u "model") (u "key") None
           (VStr (u "hello")) [] [] []
           (b (dq "data: {'id':7,'choices':[{'delta':{'content':'Hi'}},{'delta':{'content':'Yo'}}]}"))
           (b (dq "data: {'choices':[{'delta':{'content':'Hi'}}]}")) None
           _ _ (VDict [(u "delta", VDict [(u "content", VStr (u "Hi"))])])
           eq_refl eq_refl eq_refl eq_refl eq_refl).
Defined.

Lemma payload_is_stripped_witness :
  example_call
    ([] ++ b (dq "data:{'choices':[{'delta':{'content':'Hi'}}]}") :: [])
    None
  = example_call
      ([] ++ b (dq "data:   {'choices':[{'delta':{'content':'Hi'}}]}  ") :: [])
      None.
Proof.
  refine (payload_is_stripped plain_wording plain_repr
            (Json.loads plain_wording) _ (u "model") (u "key") None
            (VStr (u "hello")) [] [] []
            (b (dq "data:{'choices':[{'delta':{'content':'Hi'}}]}"))
            (b (dq "data:   {'choices':[{'delta':{'content':'Hi'}}]}  "))
            None
            (u (dq "{'choices':[{'delta':{'content':'Hi'}}]}"))
            (u (dq "   {'choices':[{'delta':{'content':'Hi'}}]}  "))
            eq_refl eq_refl eq_refl _ _ eq_refl); discriminate.
Defined.

Lemma only_interrupts_propagate_witness :
  fn plain_wording (Json.loads plain_wording)
     (refusing {| cls := NotAnException; descr := u "KeyboardInterrupt" |})
     (u "model") (preprocess plain_repr) postprocess (u "key") None
     (VStr (u "hello")) []
  = {| yields := [];
       ending := Some {| cls := NotAnException;
                         descr := u "KeyboardInterrupt" |} |}.
Proof.
  exact (proj2 (only_interrupts_propagate plain_wording plain_repr
                  (Json.loads plain_wording)
                  (refusing {| cls := NotAnException;
                               descr := u "KeyboardInterrupt" |})
                  (u "model") (u "key") None (VStr (u "hello")) [])
           {| cls := NotAnException; descr := u "KeyboardInterrupt" |}
           eq_refl eq_refl).
Defined.

Lemma at_most_one_value_per_line_witness :
  length (yields
            (example_call
               [b (dq "data: {'choices':[{'delta':{'content':'Hi'}}]}");
                b "data: {}"]
               None))
  <= 2 + 1.
Proof.
  exact (at_most_one_value_per_line plain_wording plain_repr
           (Json.loads plain_wording) _ (u "model") (u "key") None
           (VStr (u "hello")) [] _ None eq_refl).
Defined.

Lemma inputs_without_messages_witness :
  get_fn plain_wording (Json.loads plain_wording) (answering [] None)
         (u "model") (fun _ _ _ => VDict [(u "prompt", VStr (u "hello"))])
         postprocess (u "key") None (VStr (u "hello")) []
  = {| yields := [u "Error: " ++ u "'messages'"]; ending := None |}.
Proof.
  exact (inputs_without_messages plain_wording (Json.loads plain_wording)
           (answering [] None) (u "model") (u "key") None (VStr (u "hello"))
           [] (fun _ _ _ => VDict [(u "prompt", VStr (u "hello"))])
           postprocess (key_error (KStr (u "messages"))) eq_refl).
Defined.

Lemma messages_are_text_witness :
  hd VNone
     (build_messages plain_repr (VInt 3)
        [(VDict [(u "text", VStr (u "look"))], VNone)] (Some (u "be brief")))
  = message_of "system" (VStr (u "be brief")).
Proof.
  exact (proj1 (proj2 (proj2 (messages_are_text plain_repr (VInt 3)
                                [(VDict [(u "text", VStr (u "look"))], VNone)]
                                (Some (u "be brief")))))
           (u "be brief") eq_refl eq_refl).
Defined.

Lemma conversation_grows_witness :
  build_messages plain_repr (VStr (u "and now?"))
    ([(VStr (u "hello"), VNone)] ++ [(VStr (u "again"), VStr (u "hi"))])
    (Some (u "be brief"))
  = build_messages plain_repr (VStr (u "again")) [(VStr (u "hello"), VNone)]
      (Some (u "be brief"))
    ++ [message_of "assistant" (VStr (py_str plain_repr (VStr (u "hi"))));
        message_of "user" (VStr (py_str plain_repr (VStr (u "and now?"))))].
Proof.
  refine (conversation_grows plain_repr (VStr (u "again")) (VStr (u "hi"))
            (VStr (u "and now?")) [(VStr (u "hello"), VNone)]
            (Some (u "be brief")) _).
  discriminate.
Defined.

Lemma message_without_attachment_witness :
  handle_user_msg plain_wording (one_file (u "/tmp/cat.png") (b "Man"))
    (VDict [(u "text", VStr (u "look")); (u "files", VList [])])
  = Ok (VStr (u "look")).
Proof.
  refine (proj2 (message_without_attachment plain_wording
                   (one_file (u "/tmp/cat.png") (b "Man")))
            [(u "text", VStr (u "look")); (u "files", VList [])]
            (VList []) (VStr (u "look")) eq_refl _ eq_refl).
  now right.
Defined.

Lemma handle_user_msg_failures_witness :
  handle_user_msg plain_wording (one_file (u "/tmp/cat.png") (b "Man")) VNone
  = Err {| cls := NotImplementedError; descr := [] |}
  /\ handle_user_msg plain_wording (one_file (u "/tmp/cat.png") (b "Man"))
       (VDict [(u "text", VStr (u "look"))])
     = Err {| cls := KeyError; descr := u "'files'" |}
  /\ handle_user_msg plain_wording (one_file (u "/tmp/cat.png") (b "Man"))
       (VDict [(u "text", VStr (u "look"));
               (u "files", VList ([] ++ [VStr (u "/tmp/dog.gif")]))])
     = Err {| cls := OSError;
              descr := u "[Errno 2] No such file or directory: '/tmp/dog.gif'" |}
  /\ handle_user_msg plain_wording (one_file (u "/tmp/cat.png") (b "Man"))
       (VDict [(u "files", VList ([] ++ [VStr (u "/tmp/cat.png")]))])
     = Err {| cls := KeyError; descr := u "'text'" |}.
Proof.
  pose proof (handle_user_msg_failures plain_wording
                (one_file (u "/tmp/cat.png") (b "Man")))
    as (F1 & F2 & F3).
  split; [|split; [|split]].
  - apply F1; discriminate.
  - apply F2; reflexivity.
  - refine (proj1 (F3 [(u "text", VStr (u "look"));
                       (u "files", VList ([] ++ [VStr (u "/tmp/dog.gif")]))]
                      [] (u "/tmp/dog.gif") eq_refl eq_refl) _ eq_refl).
  - refine (proj2 (F3 [(u "files", VList ([] ++ [VStr (u "/tmp/cat.png")]))]
                      [] (u "/tmp/cat.png") eq_refl eq_refl)
              (b "Man") eq_refl eq_refl).
Defined.

Lemma handle_user_msg_results_witness :
  (exists s, VStr (u "hello") = VStr s /\ VStr (u "hello") = VStr s)
  \/ (exists d files,
         VStr (u "hello") = VDict d
         /\ dict_lookup (u "files") d = Some files
         /\ (files = VNone \/ len plain_wording files = Ok 0)
         /\ dict_lookup (u "text") d = Some (VStr (u "hello")))
  \/ (exists d files path text data,
         VStr (u "hello") = VDict d
         /\ dict_lookup (u "files") d = Some files
         /\ getitem plain_wording files (KInt (-1)) = Ok (VStr path)
         /\ is_image_kind (extension path) = true
         /\ one_file (u "/tmp/cat.png") (b "Man") path = Ok data
         /\ dict_lookup (u "text") d = Some text
         /\ VStr (u "hello")
            = image_content text
                (uri_head (extension path) ++ b64encode data)).
Proof.
  exact (handle_user_msg_results plain_wording
           (one_file (u "/tmp/cat.png") (b "Man")) (VStr (u "hello"))
           (VStr (u "hello")) eq_refl).
Defined.

Lemma registry_failures_witness :
  registry plain_wording plain_repr (Json.loads plain_wording)
    (fun _ => Some []) (answering [] None) chat_options any_options
    (u "model") (Some []) true []
  = Err {| cls := ValueError;
           descr := u "NOVITA_API_KEY environment variable is not set." |}
  /\ registry plain_wording plain_repr (Json.loads plain_wording)
       nothing_set (answering [] None) chat_options any_options
       (u "model") (Some (u "explicit")) false [(u "fn", VNone)]
     = Err {| cls := TypeError;
              descr := plain_wording
                         (RepeatedKeyword (u "ChatInterface") (u "fn")) |}
  /\ registry plain_wording plain_repr (Json.loads plain_wording)
       nothing_set (answering [] None) chat_options any_options
       (u "model") (Some (u "explicit")) false [(u "colour", VStr (u "red"))]
     = Err {| cls := TypeError;
              descr := u "ChatInterface.__init__() got an unexpected keyword argument 'colour'" |}.
Proof.
  split; [|split].
  - exact (proj1 (registry_failures plain_wording plain_repr
                    (Json.loads plain_wording) (fun _ => Some [])
                    (answering [] None) chat_options any_options (u "model")
                    (Some []) true [])
             eq_refl eq_refl).
  - refine (proj1 (proj1 (proj2 (registry_failures plain_wording plain_repr
                    (Json.loads plain_wording) nothing_set
                    (answering [] None) chat_options any_options (u "model")
                    (Some (u "explicit")) false [(u "fn", VNone)]))
                    (u "explicit") eq_refl _) VNone eq_refl).
    discriminate.
  - refine (proj2 (proj1 (proj2 (registry_failures plain_wording plain_repr
                    (Json.loads plain_wording) nothing_set
                    (answering [] None) chat_options any_options (u "model")
                    (Some (u "explicit")) false
                    [(u "colour", VStr (u "red"))]))
                    (u "explicit") eq_refl _) _ eq_refl eq_refl).
    discriminate.
Defined.

Lemma registry_binds_chat_widget_witness :
  registry plain_wording plain_repr (Json.loads plain_wording)
    (fun _ => Some (u "from-env")) (answering [] None) chat_options
    any_options (u "model") None false [(u "title", VStr (u "Chat"))]
  = Ok (ChatInterface
          (get_fn plain_wording (Json.loads plain_wording)
             (answering [] None) (u "model") (preprocess plain_repr)
             postprocess (u "from-env") (Some default_prompt))
          [(u "title", VStr (u "Chat"))]).
Proof.
  refine (proj2 (registry_binds_chat_widget plain_wording plain_repr
                   (Json.loads plain_wording) (fun _ => Some (u "from-env"))
                   (answering [] None) chat_options any_options (u "model")
                   None false [(u "title", VStr (u "Chat"))])
            (u "from-env") eq_refl eq_refl _ eq_refl eq_refl).
  discriminate.
Defined.

Lemma pipeline_is_chat_witness :
  get_interface_args plain_repr (u "image") None
  = Err {| cls := ValueError;
           descr := u "Unsupported pipeline type: " ++ u "image" |}.
Proof.
  refine (proj2 (pipeline_is_chat plain_repr None) (u "image") _).
  discriminate.
Defined.

Lemma widget_request_witness :
  exists key,
    or_else (Some (u "explicit")) (Some (u "from-env")) = Some key
    /\ forall message history,
        get_fn plain_wording (Json.loads plain_wording) (answering [] None)
          (u "model") (preprocess plain_repr) postprocess (u "explicit")
          (Some coder_prompt) message history
        = handle_response plain_wording (Json.loads plain_wording)
            (answering [] None
               {| url := u "https://api.novita.ai/v3/openai/chat/completions";
                  headers := [(u "Content-Type", u "application/json");
                              (u "Authorization", u "Bearer " ++ key)];
                  json :=
                    VDict
                      [(u "model", VStr (u "model"));
                       (u "messages",
                        VList
                          (message_of "system" (VStr coder_prompt)
                           :: flat_map (entry_messages plain_repr) history
                           ++ [message_of "user"
                                 (VStr (py_str plain_repr message))]));
                       (u "stream", VBool true);
                       (u "max_tokens", VInt 1000)];
                  stream := true |}).
Proof.
  exact (widget_request plain_wording plain_repr (Json.loads plain_wording)
           (fun _ => Some (u "from-env")) (answering [] None) chat_options
           any_options (u "model") (Some (u "explicit")) true [] [] _
           eq_refl).
Defined.

End Extras.
